(** * Emergency-department queue simulator: the queue-state engine of
    [src/ifem_award_api/app.py], embedded in Rocq.

    The embedding follows [app.py] function by function:
    [progress_patient_phase], [update_patients] and [get_queue], together
    with the Redis-backed [RedisEDState] they talk to.  Python exceptions
    are results of type [result]; every function that mutates an object or
    the store is a state transformer that hands back the mutated state
    even when it raises, because a Python exception does not undo the
    writes made before it. *)

From Stdlib Require Import ZArith QArith Lia.
From stdpp Require Import base strings pretty list sorting gmap.

Local Open Scope string_scope.
Local Open Scope list_scope.
Local Open Scope Z_scope.

(** ** Exceptions and the state-and-exception monad *)

Inductive exn : Type :=
  | KeyError
  | UnboundLocalError
  | AttributeError
  | TypeError.

Inductive result (A : Type) : Type :=
  | Ok (a : A)
  | Raise (e : exn).
Arguments Ok {A} a.
Arguments Raise {A} e.

(** A computation over a mutable state [S]: the state after the call and
    either the returned value or the exception that escaped. *)
Definition St (S A : Type) : Type := S -> S * result A.

Definition ret {S A : Type} (a : A) : St S A := fun s => (s, Ok a).

Definition raise {S A : Type} (e : exn) : St S A := fun s => (s, Raise e).

Definition bind {S A B : Type} (m : St S A) (k : A -> St S B) : St S B :=
  fun s =>
    match m s with
    | (s', Ok a) => k a s'
    | (s', Raise e) => (s', Raise e)
    end.

Definition get {S : Type} : St S S := fun s => (s, Ok s).

Definition modify {S : Type} (f : S -> S) : St S unit := fun s => (f s, Ok tt).

Notation "'let*' x ':=' m 'in' k" := (bind m (fun x => k))
  (at level 10, x pattern, m at level 100, k at level 200).
Notation "m ';;;' k" := (bind m (fun _ => k))
  (at level 100, k at level 200, right associativity).

(** [for x in l: body(x)] *)
Fixpoint for_each {S A : Type} (l : list A) (body : A -> St S unit) : St S unit :=
  match l with
  | [] => ret tt
  | x :: l' => body x ;;; for_each l' body
  end.

(** ** Data model *)

(** [patient.status]: the keys [app.py] reads and writes.  The
    ['investigations'] key may be absent. *)
Record Status : Type := mkStatus {
  current_phase : string;
  investigations : option (gmap string string)
}.

(** [patient.queue_position]: a dict with the keys ['global'] and
    ['category']. *)
Record QueuePosition : Type := mkQueuePosition {
  global : Z;
  category : Z
}.

(** Modelled from the spec: class [Patient] of [patients.py] is not part
    of the sources at hand.  The fields are the attributes [app.py] reads
    or assigns; [arrival_time] is a timestamp (microseconds), ids are
    strings as in the route [/api/v1/patient/<id>]. *)
Record Patient : Type := mkPatient {
  id : string;
  triage_category : Z;
  arrival_time : Z;
  status : Status;
  queue_position : QueuePosition
}.

Definition with_status (st : Status) (p : Patient) : Patient :=
  mkPatient (id p) (triage_category p) (arrival_time p) st (queue_position p).

Definition with_queue_position (q : QueuePosition) (p : Patient) : Patient :=
  mkPatient (id p) (triage_category p) (arrival_time p) (status p) q.

(** [patient.status['current_phase'] = ph] *)
Definition set_current_phase (ph : string) : St Patient unit :=
  modify (fun p => with_status (mkStatus ph (investigations (status p))) p).

(** [patient.status['investigations'] = inv] *)
Definition set_investigations (inv : gmap string string) : St Patient unit :=
  modify (fun p => with_status (mkStatus (current_phase (status p)) (Some inv)) p).

(** Modelled from the spec: [InvestigationState] of [enums.py] is not part
    of the sources at hand; the spec gives the states as
    [ordered -> pending -> reported], and [app.py] compares against the
    literals ['ordered'] and ['pending']. *)
Definition InvestigationState_ORDERED_value : string := "ordered".

(** ** The phase state machine, [progress_patient_phase] (lines 37-65) *)

(** [random.choices(['admitted', 'discharged'], weights=[15, 85])[0]],
    with the random source injected: [u] tells whether the draw landed on
    the first element. *)
Definition random_choices (u : bool) : string :=
  if u then "admitted" else "discharged".

(** The dict literal of lines 40-45.  It is rebuilt, and the draw taken,
    on every call. *)
Definition phase_transitions (u : bool) : gmap string string :=
  <["registered" := "triaged"]>
  (<["triaged" := "investigations_pending"]>
  (<["investigations_pending" := "treatment"]>
  (<["treatment" := random_choices u]> ∅))).

(** The body of the loop of lines 60-65, for one [test_type]. *)
Definition progress_test (test_type : string) : St Patient unit :=
  let* p := get in
  match investigations (status p) with
  | None => raise KeyError
  | Some inv =>
      match inv !! test_type with
      | None => raise KeyError
      | Some current_state =>
          if decide (current_state = "ordered") then
            set_investigations (<[test_type := "pending"]> inv)
          else if decide (current_state = "pending") then
            set_investigations (<[test_type := "reported"]> inv)
          else ret tt
      end
  end.

Definition progress_patient_phase (u : bool) : St Patient unit :=
  let* p := get in
  let cur := current_phase (status p) in
  match phase_transitions u !! cur with
  | Some new_phase =>
      set_current_phase new_phase ;;;
      if decide (new_phase = "investigations_pending") then
        set_investigations
          (<["labs" := InvestigationState_ORDERED_value]>
           (<["imaging" := InvestigationState_ORDERED_value]> ∅))
      else if decide (cur = "investigations_pending") then
        match investigations (status p) with
        | Some _ => for_each ["labs"; "imaging"] progress_test
        | None => ret tt
        end
      else ret tt
  | None => ret tt
  end.

(** The patient object after one call (whether or not the call raised). *)
Definition progressed (u : bool) (p : Patient) : Patient :=
  fst (progress_patient_phase u p).

(** ** The store behind [ed_state] and the injected environment *)

(** The process state one request can observe and change.  [patients] is
    the Redis keyspace [patient:*], indexed by the part of the key after
    the prefix (the prefix and [json.dumps]/[json.loads] of
    [Patient.serialize] are taken to be lossless; key expiry, which needs
    24 hours of wall-clock time, is outside the model).  [last_update] is
    the key ['last_update'].  [added] is a history variable: the argument
    of every [ed_state.add_patient] call so far, oldest first.  [draws]
    and [mocks] count the calls of [random.choices] and of
    [generate_mock_patient]. *)
Record World : Type := mkWorld {
  patients : gmap string Patient;
  last_update : option Z;
  added : list Patient;
  draws : nat;
  mocks : nat
}.

(** What the program takes from outside: the order in which
    [redis.scan_iter] lists the keyspace, the clock, the random source and
    the (absent) generator of [patients.py]. *)
Record Oracle : Type := mkOracle {
  scan_iter : gmap string Patient -> list (string * Patient);
  now_request : Z;               (* [datetime.now()] at line 134, microseconds *)
  now_pass : Z;                  (* [datetime.now()] at line 69 *)
  now_read : Z;                  (* the clock [Patient.time_elapsed] reads *)
  choices_draw : nat -> bool;    (* n-th [random.choices]: first element drawn? *)
  random_random : Q;             (* [random.random()] at line 118 *)
  mock_patient : nat -> Patient  (* n-th result of [generate_mock_patient] *)
}.

(** [scan_iter] lists each key of the keyspace once, in some order. *)
Definition scan_ok (o : Oracle) : Prop :=
  forall m, scan_iter o m ≡ₚ map_to_list m.

(** Every entry sits under the key built from its own id, as
    [add_patient] stores it. *)
Definition keyed_by_id (m : gmap string Patient) : Prop :=
  forall k p, m !! k = Some p -> id p = k.

(** A Python dict as an insertion-ordered association list:
    [d[k] = v]. *)
Fixpoint dict_set {V : Type} (k : string) (v : V) (d : list (string * V)) : list (string * V) :=
  match d with
  | [] => [(k, v)]
  | (k', v') :: d' =>
      if decide (k' = k) then (k, v) :: d' else (k', v') :: dict_set k v d'
  end.

(** [RedisEDState.get_patients] (lines 20-25). *)
Definition get_patients (o : Oracle) : St World (list (string * Patient)) :=
  let* w := get in
  ret (foldl (fun d kp => dict_set (id (snd kp)) (snd kp) d) [] (scan_iter o (patients w))).

(** [RedisEDState.add_patient] (lines 27-30). *)
Definition add_patient (patient : Patient) : St World unit :=
  modify (fun w =>
    mkWorld (<[id patient := patient]> (patients w)) (last_update w)
            (added w ++ [patient]) (draws w) (mocks w)).

(** [RedisEDState.remove_patient] (lines 32-33). *)
Definition remove_patient (patient_id : string) : St World unit :=
  modify (fun w =>
    mkWorld (delete patient_id (patients w)) (last_update w)
            (added w) (draws w) (mocks w)).

(** [ed_state.redis.set('last_update', t.isoformat())] *)
Definition set_last_update (t : Z) : St World unit :=
  modify (fun w => mkWorld (patients w) (Some t) (added w) (draws w) (mocks w)).

(** One call of [random.choices] inside [progress_patient_phase]. *)
Definition draw_choice (o : Oracle) : St World bool :=
  fun w =>
    (mkWorld (patients w) (last_update w) (added w) (S (draws w)) (mocks w),
     Ok (choices_draw o (draws w))).

(** [generate_mock_patient()] *)
Definition generate_mock_patient (o : Oracle) : St World Patient :=
  fun w =>
    (mkWorld (patients w) (last_update w) (added w) (draws w) (S (mocks w)),
     Ok (mock_patient o (mocks w))).

(** ** Sorting *)

(** [list.sort] is stable; on keys whose comparison cannot raise it is
    determined by that, so a stable insertion sort computes the same list.
    Only [<] on keys is used, as in Python. *)
Fixpoint insert_sorted {A : Type} (lt : A -> A -> bool) (x : A) (l : list A) : list A :=
  match l with
  | [] => [x]
  | y :: l' => if lt y x then y :: insert_sorted lt x l' else x :: y :: l'
  end.

Fixpoint list_sort {A : Type} (lt : A -> A -> bool) (l : list A) : list A :=
  match l with
  | [] => []
  | x :: l' => insert_sorted lt x (list_sort lt l')
  end.

(** [<] on the tuples [(p.triage_category, p.arrival_time)]. *)
Definition triage_key_lt (p q : Patient) : bool :=
  (triage_category p <? triage_category q)
  || ((triage_category p =? triage_category q) && (arrival_time p <? arrival_time q)).

(** ** The advancement pass, [update_patients] (lines 67-124) *)

Definition is_terminal (ph : string) : bool :=
  bool_decide (ph ∈ ["discharged"; "admitted"]).

(** The loop of lines 82-89.  The patient objects are mutated in place;
    the result lists them in the order of [patient_list], each with the
    flag "is in [removed_patients]" (the membership test of line 97 is on
    the objects of this very list). *)
Fixpoint first_pass (o : Oracle) (patient_list : list Patient) : St World (list (Patient * bool)) :=
  match patient_list with
  | [] => ret []
  | patient :: rest =>
      if is_terminal (current_phase (status patient)) then
        remove_patient (id patient) ;;;
        let* rest' := first_pass o rest in
        ret ((patient, true) :: rest')
      else
        let* u := draw_choice o in
        match progress_patient_phase u patient with
        | (patient', Ok _) =>
            let* rest' := first_pass o rest in
            ret ((patient', false) :: rest')
        | (_, Raise e) => raise e
        end
  end.

(** [{i: 1 for i in range(1, 6)}] *)
Definition initial_category_positions : gmap Z Z :=
  list_to_map ((fun i => (i, 1)) <$> [1; 2; 3; 4; 5]).

(** Lines 98-104 and 109-115: give [patient] the current counters, bump
    them and persist the patient. *)
Definition assign_position (patient : Patient) (global_pos : Z) (category_positions : gmap Z Z)
    : St World (Z * gmap Z Z) :=
  match category_positions !! triage_category patient with
  | None => raise KeyError
  | Some c =>
      add_patient (with_queue_position (mkQueuePosition global_pos c) patient) ;;;
      ret (global_pos + 1, <[triage_category patient := c + 1]> category_positions)
  end.

(** The loop of lines 96-104. *)
Fixpoint renumber (marked : list (Patient * bool)) (global_pos : Z) (category_positions : gmap Z Z)
    : St World (Z * gmap Z Z) :=
  match marked with
  | [] => ret (global_pos, category_positions)
  | (patient, removed) :: rest =>
      if removed then renumber rest global_pos category_positions
      else
        let* (g, c) := assign_position patient global_pos category_positions in
        renumber rest g c
  end.

(** The loop of lines 107-115. *)
Fixpoint replace_removed (o : Oracle) (removed_count : nat) (global_pos : Z)
    (category_positions : gmap Z Z) : St World (Z * gmap Z Z) :=
  match removed_count with
  | O => ret (global_pos, category_positions)
  | S n =>
      let* new_patient := generate_mock_patient o in
      let* (g, c) := assign_position new_patient global_pos category_positions in
      replace_removed o n g c
  end.

Definition removed_patients (marked : list (Patient * bool)) : list Patient :=
  fst <$> filter (fun pb => snd pb = true) marked.

(** [random.random() < 0.3] *)
Definition growth_fires (o : Oracle) : bool :=
  negb (Qle_bool (3 # 10) (random_random o)).

(** [global_pos] and [category_positions] are bound only inside the branch
    of line 92: they are an [option] here, and reading them unbound
    raises. *)
Definition update_patients (o : Oracle) : St World unit :=
  let* patients := get_patients o in
  let current_time := now_pass o in
  set_last_update current_time ;;;
  let patient_list := list_sort triage_key_lt (snd <$> patients) in
  let* marked := first_pass o patient_list in
  let removed_count := length (removed_patients marked) in
  let* counters :=
    match removed_patients marked with
    | [] => ret None
    | _ :: _ =>
        let* (g, c) := renumber marked 1 initial_category_positions in
        let* (g', c') := replace_removed o removed_count g c in
        ret (Some (g', c'))
    end in
  if (Z.of_nat (length patients) <? 30) && growth_fires o then
    let* new_patient := generate_mock_patient o in
    match counters with
    | None => raise UnboundLocalError
    | Some (global_pos, category_positions) =>
        match category_positions !! triage_category new_patient with
        | None => raise KeyError
        | Some c =>
            add_patient (with_queue_position (mkQueuePosition global_pos c) new_patient)
        end
    end
  else ret tt.

(** ** The queue endpoint, [get_queue] (lines 130-182) *)

(** The Python values an attribute of a patient can hold, as far as
    ordering them is concerned. *)
Inductive pyval : Type :=
  | PyInt (z : Z)
  | PyStr (s : string)
  | PyDict
  | PyMethod.

(** [a < b]: defined on two numbers and on two strings; dicts and bound
    methods do not support it. *)
Definition py_lt (a b : pyval) : result bool :=
  match a, b with
  | PyInt x, PyInt y => Ok (x <? y)
  | PyStr x, PyStr y => Ok (String.ltb x y)
  | _, _ => Raise TypeError
  end.

(** Modelled from the spec: [Patient.time_elapsed] of [patients.py] is not
    part of the sources at hand; the spec derives it as now minus the
    arrival time, computed on read. *)
Definition time_elapsed (o : Oracle) (p : Patient) : Z :=
  now_read o - arrival_time p.

(** Modelled from the spec: [getattr(p, name)] over the attributes of
    [Patient] that [app.py] reads, assigns or calls; the class itself
    ([patients.py]) is not part of the sources at hand.  [status] and
    [queue_position] hold dicts, [serialize] is a method. *)
Definition getattr (o : Oracle) (p : Patient) (name : string) : result pyval :=
  if decide (name = "id") then Ok (PyStr (id p))
  else if decide (name = "triage_category") then Ok (PyInt (triage_category p))
  else if decide (name = "arrival_time") then Ok (PyInt (arrival_time p))
  else if decide (name = "time_elapsed") then Ok (PyInt (time_elapsed o p))
  else if decide (name = "status") then Ok PyDict
  else if decide (name = "queue_position") then Ok PyDict
  else if decide (name = "serialize") then Ok PyMethod
  else Raise AttributeError.

(** [list.sort(key=...)] first computes the key of every element, in
    order. *)
Fixpoint decorate {A : Type} (key : A -> result pyval) (l : list A) : result (list (pyval * A)) :=
  match l with
  | [] => Ok []
  | x :: l' =>
      match key x with
      | Raise e => Raise e
      | Ok k =>
          match decorate key l' with
          | Raise e => Raise e
          | Ok r => Ok ((k, x) :: r)
          end
      end
  end.

(** The stable insertion sort again, on decorated elements, with a
    comparison that can raise.  Which pairs a sort compares depends on the
    algorithm; with one element or none nothing is compared, with two or
    more at least one pair is, and that is all the statements below use
    when a comparison raises. *)
Fixpoint insert_checked {A : Type} (x : pyval * A) (l : list (pyval * A)) : result (list (pyval * A)) :=
  match l with
  | [] => Ok [x]
  | y :: l' =>
      match py_lt (fst y) (fst x) with
      | Raise e => Raise e
      | Ok true =>
          match insert_checked x l' with
          | Raise e => Raise e
          | Ok r => Ok (y :: r)
          end
      | Ok false => Ok (x :: y :: l')
      end
  end.

Fixpoint sort_checked {A : Type} (l : list (pyval * A)) : result (list (pyval * A)) :=
  match l with
  | [] => Ok []
  | x :: l' =>
      match sort_checked l' with
      | Raise e => Raise e
      | Ok r => insert_checked x r
      end
  end.

(** [patients.sort(key=lambda p: getattr(p, sort))] (line 176) *)
Definition sort_by_attr (o : Oracle) (sort : string) (l : list Patient) : result (list Patient) :=
  match decorate (fun p => getattr o p sort) l with
  | Raise e => Raise e
  | Ok keyed =>
      match sort_checked keyed with
      | Raise e => Raise e
      | Ok r => Ok (snd <$> r)
      end
  end.

(** The JSON body of lines 178-182; a serialized patient is the patient
    record. *)
Record Response : Type := mkResponse {
  waitingCount : Z;
  longestWaitTime : Z;
  response_patients : list Patient
}.

(** [max(xs, default=0)] *)
Definition max_default (xs : list Z) : Z :=
  match xs with
  | [] => 0
  | x :: xs' => foldl Z.max x xs'
  end.

(** Lines 174-182, with [sort] the value of the request parameter. *)
Definition respond (o : Oracle) (sort : string) (l : list Patient) : result Response :=
  match sort_by_attr o sort l with
  | Raise e => Raise e
  | Ok sorted =>
      Ok (mkResponse (Z.of_nat (length sorted))
                     (max_default (time_elapsed o <$> sorted))
                     sorted)
  end.

(** [generate_mock_patients(count)] (lines 127-128) *)
Fixpoint generate_mock_patients (o : Oracle) (count : nat) : St World (list Patient) :=
  match count with
  | O => ret []
  | S n =>
      let* p := generate_mock_patient o in
      let* ps := generate_mock_patients o n in
      ret (p :: ps)
  end.

(** The loop of lines 163-172; it returns the list of the patient
    objects, which now carry their positions. *)
Fixpoint number_all (l : list Patient) (global_pos : Z) (category_positions : gmap Z Z)
    : St World (list Patient) :=
  match l with
  | [] => ret []
  | patient :: rest =>
      match category_positions !! triage_category patient with
      | None => raise KeyError
      | Some c =>
          let patient' := with_queue_position (mkQueuePosition global_pos c) patient in
          add_patient patient' ;;;
          let* rest' :=
            number_all rest (global_pos + 1)
                       (<[triage_category patient := c + 1]> category_positions) in
          ret (patient' :: rest')
      end
  end.

(** [int(delta.total_seconds() / 60)], the clock in microseconds; [int]
    truncates towards zero. *)
Definition minutes_between (t0 t1 : Z) : Z := Z.quot (t1 - t0) 60000000.

(** Lines 133-147: the scheduler. *)
Definition schedule (o : Oracle) : St World unit :=
  let* w := get in
  let current_time := now_request o in
  match last_update w with
  | Some t =>
      let minutes_passed := minutes_between t current_time in
      let updates_needed := minutes_passed / 15 in
      for_each (seq 0 1) (fun _ => update_patients o) ;;;
      if 0 <? updates_needed then set_last_update current_time else ret tt
  | None => set_last_update current_time
  end.

(** [sort_arg] is [request.args.get('sort')]: [None] when the request
    carries no such parameter. *)
Definition get_queue (o : Oracle) (sort_arg : option string) : St World Response :=
  schedule o ;;;
  let* d := get_patients o in
  let* l :=
    match snd <$> d with
    | [] =>
        let* ps := generate_mock_patients o 25 in
        number_all (list_sort triage_key_lt ps) 1 initial_category_positions
    | p :: ps => ret (p :: ps)
    end in
  let sort := default "arrival_time" sort_arg in
  match respond o sort l with
  | Ok r => ret r
  | Raise e => raise e
  end.

(** ** The other endpoints *)

(** [d.get(k)] on a dict: [k in d] is [is_Some], [d[k]] the value. *)
Fixpoint dict_get {V : Type} (k : string) (d : list (string * V)) : option V :=
  match d with
  | [] => None
  | (k', v) :: d' => if decide (k' = k) then Some v else dict_get k d'
  end.

(** What [/api/v1/patient/<id>] answers: the serialized patient, or the
    error body with status 404. *)
Inductive PatientReply : Type :=
  | PatientFound (p : Patient)
  | PatientNotFound.

(** [get_patient] (lines 205-210) *)
Definition get_patient (o : Oracle) (patient_id : string) : St World PatientReply :=
  let* patients := get_patients o in
  match dict_get patient_id patients with
  | None => ret PatientNotFound
  | Some p => ret (PatientFound p)
  end.

(** [{i: 0 for i in range(1, 6)}] and [{i: [] for i in range(1, 6)}] *)
Definition initial_category_breakdown : gmap Z Z :=
  list_to_map ((fun i => (i, 0)) <$> [1; 2; 3; 4; 5]).

Definition initial_wait_times : gmap Z (list Z) :=
  list_to_map ((fun i => (i, [])) <$> [1; 2; 3; 4; 5]).

(** The loop of lines 190-193. *)
Fixpoint tally (o : Oracle) (mock_patients : list Patient) (category_breakdown : gmap Z Z)
    (wait_times : gmap Z (list Z)) : result (gmap Z Z * gmap Z (list Z)) :=
  match mock_patients with
  | [] => Ok (category_breakdown, wait_times)
  | patient :: rest =>
      let category := triage_category patient in
      match category_breakdown !! category with
      | None => Raise KeyError
      | Some n =>
          match wait_times !! category with
          | None => Raise KeyError
          | Some times =>
              tally o rest
                (<[category := n + 1]> category_breakdown)
                (<[category := times ++ [time_elapsed o patient]]> wait_times)
          end
      end
  end.

(** The JSON body of lines 200-203. *)
Record Stats : Type := mkStats {
  categoryBreakdown : gmap Z Z;
  averageWaitTimes : gmap Z Z
}.

(** [get_stats] (lines 184-203).  [round(sum(times) / len(times))] is
    arithmetic on floats; it is taken as the parameter [round_div], which
    gets the sum and the length. *)
Definition get_stats (o : Oracle) (round_div : Z -> Z -> Z) : St World Stats :=
  let* mock_patients := generate_mock_patients o 25 in
  match tally o mock_patients initial_category_breakdown initial_wait_times with
  | Raise e => raise e
  | Ok (category_breakdown, wait_times) =>
      let average_wait_times :=
        (fun times =>
           match times with
           | [] => 0
           | _ :: _ => round_div (foldl Z.add 0 times) (Z.of_nat (length times))
           end) <$> wait_times in
      ret (mkStats category_breakdown average_wait_times)
  end.

(** ** Vocabulary of the statements *)

(** The dict [{'labs': labs, 'imaging': imaging}]. *)
Definition tests (labs imaging : string) : gmap string string :=
  <["labs" := labs]> (<["imaging" := imaging]> ∅).

(** The dict [patients] of line 68 and the sorted [patient_list] of
    lines 73-76, as functions of the store. *)
Definition scanned (o : Oracle) (w : World) : list (string * Patient) :=
  foldl (fun d kp => dict_set (id (snd kp)) (snd kp) d) [] (scan_iter o (patients w)).

Definition patient_list (o : Oracle) (w : World) : list Patient :=
  list_sort triage_key_lt (snd <$> scanned o w).

(** One step of the loop of lines 22-24. *)
Definition dict_add (d : list (string * Patient)) (kp : string * Patient) :
    list (string * Patient) :=
  dict_set (id (snd kp)) (snd kp) d.

(** In a list sorted with [lt], [a] may stand before [b]: [b < a]
    fails. *)
Definition not_after {A : Type} (lt : A -> A -> bool) (a b : A) : Prop :=
  lt b a = false.

(** The sort key of line 76 and the order on it. *)
Definition triage_key (p : Patient) : Z * Z := (triage_category p, arrival_time p).

Definition key_le (a b : Z * Z) : Prop :=
  fst a < fst b \/ (fst a = fst b /\ snd a <= snd b).

(** A patient whose phase is terminal when the pass reaches it. *)
Definition terminal (p : Patient) : Prop :=
  is_terminal (current_phase (status p)) = true.

Global Instance terminal_dec (p : Patient) : Decision (terminal p).
Proof. unfold terminal. apply _. Defined.

(** The patients of a list the first loop removes, and those it keeps. *)
Definition dead (l : list Patient) : list Patient := filter terminal l.

Definition live (l : list Patient) : list Patient :=
  filter (fun p => ~ terminal p) l.

(** The survivors among the marked objects of [first_pass]. *)
Definition survivors_of (marked : list (Patient * bool)) : list Patient :=
  fst <$> filter (fun pb => snd pb = false) marked.

(** How [first_pass] marks one patient: the flag says whether it was
    terminal at entry; a removed patient is left as it is, a survivor is
    the result of one call of [progress_patient_phase]. *)
Definition marks (p : Patient) (pb : Patient * bool) : Prop :=
  snd pb = is_terminal (current_phase (status p))
  /\ (snd pb = true -> fst pb = p)
  /\ (snd pb = false -> exists u, progress_patient_phase u p = (fst pb, Ok tt)).

(** However the computation [m] ends, the process state it leaves is
    related by [R] to the one it started from. *)
Definition stable {A : Type} (R : relation World) (m : St World A) : Prop :=
  forall w, R w (fst (m w)).

(** The component [f] of the process state is what it was. *)
Definition same {X : Type} (f : World -> X) : relation World :=
  fun w w' => f w' = f w.

(** If the keys were the ids, they still are. *)
Definition keyed_after : relation World :=
  fun w w' => keyed_by_id (patients w) -> keyed_by_id (patients w').

(** [a] is [p] with a queue position assigned. *)
Definition positioned (p a : Patient) : Prop :=
  exists q, a = with_queue_position q p.

(** A stored survivor: a patient after one call of the state machine,
    with a fresh queue position. *)
Definition advanced (p a : Patient) : Prop :=
  exists u p', progress_patient_phase u p = (p', Ok tt) /\ positioned p' a.

(** [redis.delete] of each key of [ids], in order. *)
Definition purge (ids : list string) (m : gmap string Patient) : gmap string Patient :=
  foldl (fun m k => delete k m) m ids.

(** [redis.set] of each patient of [l] under its id, in order. *)
Definition store_all (l : list Patient) (m : gmap string Patient) : gmap string Patient :=
  foldl (fun m p => <[id p := p]> m) m l.

Definition global_positions (l : list Patient) : list Z :=
  (fun p => global (queue_position p)) <$> l.

Definition category_positions_in (k : Z) (l : list Patient) : list Z :=
  (fun p => category (queue_position p)) <$> filter (fun p => triage_category p = k) l.

(** [1, 2, ..., n] *)
Definition one_to (n : nat) : list Z := Z.of_nat <$> seq 1 n.

(** Global positions [1..N] and, in every category [k], category
    positions [1..M_k], in list order. *)
Definition positions_dense (l : list Patient) : Prop :=
  global_positions l = one_to (length l)
  /\ forall k, category_positions_in k l
               = one_to (length (filter (fun p => triage_category p = k) l)).

(** The counters of lines 93-94 after the patients of [acc] have been
    numbered. *)
Definition counters_after (acc : list Patient) (g : Z) (c : gmap Z Z) : Prop :=
  g = Z.of_nat (S (length acc))
  /\ forall k ck, c !! k = Some ck ->
       ck = Z.of_nat (S (length (filter (fun p => triage_category p = k) acc))).

(** The condition of line 118. *)
Definition growth_due (o : Oracle) (w : World) : bool :=
  (Z.of_nat (length (scanned o w)) <? 30) && growth_fires o.

(** [a] may stand before [b] in a list sorted by the attribute [sort]:
    both have the attribute and [b.sort < a.sort] is false. *)
Definition attr_le (o : Oracle) (sort : string) (a b : Patient) : Prop :=
  exists ka kb,
    getattr o a sort = Ok ka /\ getattr o b sort = Ok kb /\ py_lt kb ka = Ok false.

(** [py_lt] where it is defined. *)
Definition py_lt_total (a b : pyval) : bool :=
  match a, b with
  | PyInt x, PyInt y => x <? y
  | PyStr x, PyStr y => String.ltb x y
  | _, _ => false
  end.

(** A patient the pass can process without a [KeyError]: the triage
    category is one of the keys of [category_positions], and an
    investigations dict, if there is one, has both test kinds. *)
Definition well_formed (p : Patient) : Prop :=
  1 <= triage_category p <= 5
  /\ forall inv, investigations (status p) = Some inv ->
       is_Some (inv !! "labs") /\ is_Some (inv !! "imaging").

(** [category_positions] has its five keys. *)
Definition counters_total (c : gmap Z Z) : Prop :=
  forall k, 1 <= k <= 5 -> is_Some (c !! k).

(** ** Sample data *)

Definition sample_patient : Patient :=
  mkPatient "p-1" 3 0
    (mkStatus "investigations_pending" (Some (tests "ordered" "ordered")))
    (mkQueuePosition 1 1).

Definition plain_patient (i : string) (c a : Z) (ph : string) : Patient :=
  mkPatient i c a (mkStatus ph None) (mkQueuePosition 0 0).

(** A generator: the n-th patient is ["mock-n"], registered, in category
    [1 + n mod 5], arriving at time [n]. *)
Definition sample_mock (n : nat) : Patient :=
  plain_patient ("mock-" +:+ pretty n) (1 + Z.of_nat (n mod 5)) (Z.of_nat n) "registered".

(** An environment: the keyspace is listed in the order of
    [map_to_list], every [random.choices] draws 'discharged'. *)
Definition sample_oracle (t_request t_pass : Z) (r : Q) : Oracle :=
  mkOracle map_to_list t_request t_pass t_pass (fun _ => false) r sample_mock.

Definition world_of (l : list Patient) (t : option Z) : World :=
  mkWorld (list_to_map ((fun p => (id p, p)) <$> l)) t [] 0 0.

(** Two stored patients: ["a"] already discharged, ["b"] in treatment. *)
Definition world_two : World :=
  world_of [plain_patient "a" 2 5 "discharged"; plain_patient "b" 1 7 "treatment"] (Some 0).

(** Three stored patients: ["a"] already discharged, ["b"] in
    treatment, and the sample patient ["p-1"] at investigations_pending
    with both tests ordered. *)
Definition world_three : World :=
  world_of [plain_patient "a" 2 5 "discharged"; plain_patient "b" 1 7 "treatment";
            sample_patient] (Some 0).

(** One stored patient, just registered. *)
Definition world_one : World :=
  world_of [plain_patient "c" 3 9 "registered"] (Some 0).

(** A store with no ['last_update'] key: the first request ever. *)
Definition world_fresh : World :=
  world_of [plain_patient "c" 3 9 "registered"; plain_patient "d" 1 4 "treatment"] None.

(** Five minutes, in microseconds. *)
Definition five_minutes : Z := 300000000.


(** ** Further vocabulary *)

(** One step of a test kind along [ordered -> pending -> reported]
    (lines 62-65); any other state stays. *)
Definition next_state (s : string) : string :=
  if decide (s = "ordered") then "pending"
  else if decide (s = "pending") then "reported"
  else s.

(** Passes run one after the other, each with its own environment,
    whether they complete or raise. *)
Definition run_passes (os : list Oracle) (w : World) : World :=
  foldl (fun w o => fst (update_patients o w)) w os.

(** How many patients a completed pass generates: one per removed
    patient, and the growth patient if it is due; none if nobody was
    removed. *)
Definition generated_count (o : Oracle) (w : World) : nat :=
  match dead (patient_list o w) with
  | [] => 0
  | d :: ds => length (d :: ds) + (if growth_due o w then 1 else 0)
  end.

(** A triage category that is a key of the per-category dicts. *)
Definition valid_category (p : Patient) : Prop := 1 <= triage_category p <= 5.

(** A per-category dict has no key besides 1..5. *)
Definition counters_only {V : Type} (c : gmap Z V) : Prop :=
  forall k, is_Some (c !! k) -> 1 <= k <= 5.

(** The patients of [l] in category [k]. *)
Definition in_category (k : Z) (l : list Patient) : list Patient :=
  filter (fun p => triage_category p = k) l.

(** A per-category dict has the keys 1..5. *)
Definition has_categories {V : Type} (c : gmap Z V) : Prop :=
  forall k, 1 <= k <= 5 -> is_Some (c !! k).

(** A generator whose fourth patient carries the triage category 9. *)
Definition faulty_mock (n : nat) : Patient :=
  if decide (n = 3%nat) then plain_patient "mock-x" 9 3 "registered" else sample_mock n.

Definition faulty_oracle : Oracle :=
  mkOracle map_to_list 0 1 1 (fun _ => false) (1 # 2) faulty_mock.

(** * Properties *)

(** ** The phase state machine *)

Lemma phase_transitions_lookup (u : bool) (ph : string) :
  phase_transitions u !! ph =
    if decide (ph = "registered") then Some "triaged"
    else if decide (ph = "triaged") then Some "investigations_pending"
    else if decide (ph = "investigations_pending") then Some "treatment"
    else if decide (ph = "treatment") then Some (random_choices u)
    else None.
Proof.
  unfold phase_transitions.
  repeat (rewrite lookup_insert; case_decide; subst; [ reflexivity | ]).
  rewrite lookup_empty.
  repeat (case_decide; [ congruence | ]).
  reflexivity.
Qed.

Lemma random_choices_terminal (u : bool) :
  random_choices u = "admitted" \/ random_choices u = "discharged".
Proof. destruct u; [ left | right ]; reflexivity. Qed.

(** The function, unfolded phase by phase. *)
Lemma progress_patient_phase_unfold (u : bool) (p : Patient) :
  let cur := current_phase (status p) in
  let inv := investigations (status p) in
  progress_patient_phase u p =
    if decide (cur = "registered") then
      (with_status (mkStatus "triaged" inv) p, Ok tt)
    else if decide (cur = "triaged") then
      (with_status (mkStatus "investigations_pending" (Some (tests "ordered" "ordered"))) p, Ok tt)
    else if decide (cur = "investigations_pending") then
      match inv with
      | Some _ =>
          for_each ["labs"; "imaging"] progress_test (with_status (mkStatus "treatment" inv) p)
      | None => (with_status (mkStatus "treatment" None) p, Ok tt)
      end
    else if decide (cur = "treatment") then
      (with_status (mkStatus (random_choices u) inv) p, Ok tt)
    else (p, Ok tt).
Proof.
  destruct p as [i c a [ph inv] q]; simpl.
  unfold progress_patient_phase, bind, get; simpl.
  rewrite phase_transitions_lookup.
  repeat (case_decide; subst; [ try (destruct inv); try (destruct u); reflexivity | ]).
  reflexivity.
Qed.

(** One test kind is advanced without touching the phase, and the
    mapping stays in place. *)
Lemma progress_test_status (t : string) (p : Patient) :
  let p' := fst (progress_test t p) in
  current_phase (status p') = current_phase (status p)
  /\ (is_Some (investigations (status p')) <-> is_Some (investigations (status p)))
  /\ id p' = id p /\ triage_category p' = triage_category p
  /\ arrival_time p' = arrival_time p /\ queue_position p' = queue_position p.
Proof.
  unfold progress_test, bind, get; simpl.
  destruct (investigations (status p)) as [inv|] eqn:Hinv; simpl.
  - destruct (inv !! t) as [s|]; simpl.
    + repeat case_decide; simpl; rewrite ?Hinv; repeat split; eauto.
    + rewrite Hinv. repeat split; eauto.
  - rewrite Hinv. repeat split; auto.
Qed.

Lemma progress_tests_status (p : Patient) :
  let p' := fst (for_each ["labs"; "imaging"] progress_test p) in
  current_phase (status p') = current_phase (status p)
  /\ (is_Some (investigations (status p')) <-> is_Some (investigations (status p)))
  /\ id p' = id p /\ triage_category p' = triage_category p
  /\ arrival_time p' = arrival_time p /\ queue_position p' = queue_position p.
Proof.
  simpl. unfold bind.
  pose proof (progress_test_status "labs" p) as Hl. simpl in Hl.
  destruct (progress_test "labs" p) as [p1 [[]|e]]; simpl in *; [ | exact Hl ].
  pose proof (progress_test_status "imaging" p1) as Hi. simpl in Hi.
  destruct Hl as (Hl1 & Hl2 & Hl3 & Hl4 & Hl5 & Hl6).
  destruct (progress_test "imaging" p1) as [p2 [[]|e]]; simpl in *;
    destruct Hi as (Hi1 & Hi2 & Hi3 & Hi4 & Hi5 & Hi6);
    repeat split; try congruence; tauto.
Qed.

(** A call leaves the identity, the triage data and the queue position
    of the patient alone. *)
Lemma progress_patient_phase_frame (u : bool) (p : Patient) :
  let p' := progressed u p in
  id p' = id p /\ triage_category p' = triage_category p
  /\ arrival_time p' = arrival_time p /\ queue_position p' = queue_position p.
Proof.
  unfold progressed. rewrite progress_patient_phase_unfold.
  repeat (case_decide; [ simpl; auto | ]); [ | simpl; auto .. ].
  destruct (investigations (status p)); simpl; auto.
  pose proof (progress_tests_status
    (with_status (mkStatus "treatment" (Some g)) p)) as H'.
  simpl in H'. tauto.
Qed.

(** C7: for a patient not in a terminal phase, one call of
    [progress_patient_phase] moves [current_phase] exactly one step along
    registered, triaged, investigations_pending, treatment, and from
    treatment to the drawn terminal phase (admitted or discharged);
    entering investigations_pending sets [status.investigations] to
    [{labs: ordered, imaging: ordered}]; a patient already admitted or
    discharged is left as it is. *)
Theorem progress_patient_phase_one_step (u : bool) (p : Patient) :
  let cur := current_phase (status p) in
  let p' := progressed u p in
  (cur = "registered" ->
     current_phase (status p') = "triaged"
     /\ snd (progress_patient_phase u p) = Ok tt)
  /\ (cur = "triaged" ->
     status p' = mkStatus "investigations_pending" (Some (tests "ordered" "ordered"))
     /\ snd (progress_patient_phase u p) = Ok tt)
  /\ (cur = "investigations_pending" ->
     current_phase (status p') = "treatment")
  /\ (cur = "treatment" ->
     current_phase (status p') = random_choices u
     /\ (current_phase (status p') = "admitted" \/ current_phase (status p') = "discharged")
     /\ snd (progress_patient_phase u p) = Ok tt)
  /\ (cur = "admitted" \/ cur = "discharged" ->
     progress_patient_phase u p = (p, Ok tt)).
Proof.
  unfold progressed. rewrite progress_patient_phase_unfold.
  split; [ | split; [ | split; [ | split ] ] ].
  - intros ->. simpl. auto.
  - intros ->. simpl. auto.
  - intros ->. simpl.
    destruct (investigations (status p)) as [inv|]; [ | reflexivity ].
    apply (progress_tests_status (with_status (mkStatus "treatment" (Some inv)) p)).
  - intros ->. simpl. auto using random_choices_terminal.
  - intros [-> | ->]; reflexivity.
Qed.

(** C9 (as stated, refuted): after the call that takes the sample patient
    from investigations_pending to treatment, the patient still carries
    its investigations mapping. *)
Lemma investigations_kept_past_pending :
  let p1 := progressed false sample_patient in
  current_phase (status sample_patient) = "investigations_pending"
  /\ current_phase (status p1) = "treatment"
  /\ investigations (status p1) = Some (tests "pending" "pending")
  /\ ~ (is_Some (investigations (status p1))
        <-> current_phase (status p1) = "investigations_pending").
Proof.
  repeat split. intros [H _].
  assert (is_Some (investigations (status (progressed false sample_patient)))) as Hs
    by (eexists; reflexivity).
  apply H in Hs. vm_compute in Hs. discriminate Hs.
Qed.

(** C9 (amended): [status.investigations] is created by the call that
    moves a patient from triaged into investigations_pending and is never
    removed: after a call the mapping exists if and only if it existed
    before the call or the call entered investigations_pending. *)
Theorem investigations_never_removed (u : bool) (p : Patient) :
  is_Some (investigations (status (progressed u p)))
  <-> is_Some (investigations (status p)) \/ current_phase (status p) = "triaged".
Proof.
  unfold progressed. rewrite progress_patient_phase_unfold.
  repeat case_decide; simpl.
  - split; [ tauto | intros [H'|H']; [ exact H' | congruence ] ].
  - split; [ auto | eauto ].
  - destruct (investigations (status p)) as [inv|] eqn:Hinv.
    + pose proof (progress_tests_status
        (with_status (mkStatus "treatment" (Some inv)) p)) as (_ & Hs & _).
      simpl in Hs. rewrite Hs. split; [ auto | eauto ].
    + simpl. split; [ tauto | intros [H'|H']; [ exact H' | congruence ] ].
  - split; [ tauto | intros [H'|H']; [ exact H' | congruence ] ].
  - split; [ tauto | intros [H'|H']; [ exact H' | congruence ] ].
Qed.

(** ** Sorting *)

Section sorting.
Context {A : Type} (lt : A -> A -> bool).

Lemma insert_sorted_perm (x : A) (l : list A) : insert_sorted lt x l ≡ₚ x :: l.
Proof.
  induction l as [|y l IH]; simpl; [ reflexivity | ].
  destruct (lt y x); [ | reflexivity ].
  rewrite IH. apply Permutation_swap.
Qed.

Lemma list_sort_perm (l : list A) : list_sort lt l ≡ₚ l.
Proof.
  induction l as [|x l IH]; simpl; [ reflexivity | ].
  rewrite insert_sorted_perm. f_equiv. exact IH.
Qed.

Hypothesis lt_asym : forall a b, lt a b = true -> lt b a = false.

Lemma insert_sorted_HdRel (a x : A) (l : list A) :
  not_after lt a x -> HdRel (not_after lt) a l ->
  HdRel (not_after lt) a (insert_sorted lt x l).
Proof.
  intros Hax Hal. destruct l as [|y l]; simpl; [ constructor; exact Hax | ].
  destruct (lt y x); constructor; [ | exact Hax ].
  inversion Hal; assumption.
Qed.

Lemma insert_sorted_Sorted (x : A) (l : list A) :
  Sorted (not_after lt) l -> Sorted (not_after lt) (insert_sorted lt x l).
Proof.
  induction 1 as [|y l Hl IH Hy]; simpl; [ repeat constructor | ].
  destruct (lt y x) eqn:Hyx.
  - constructor; [ exact IH | ].
    apply insert_sorted_HdRel; [ | exact Hy ].
    apply lt_asym. exact Hyx.
  - constructor; [ constructor; assumption | constructor; exact Hyx ].
Qed.

Lemma list_sort_Sorted (l : list A) : Sorted (not_after lt) (list_sort lt l).
Proof.
  induction l as [|x l IH]; simpl; [ constructor | ].
  apply insert_sorted_Sorted. exact IH.
Qed.

Hypothesis not_after_trans :
  forall a b c, not_after lt a b -> not_after lt b c -> not_after lt a c.

Lemma list_sort_StronglySorted (l : list A) :
  StronglySorted (not_after lt) (list_sort lt l).
Proof.
  apply Sorted.Sorted_StronglySorted; [ | apply list_sort_Sorted ].
  intros a b c. apply not_after_trans.
Qed.
End sorting.

(** Sorting a decorated list is sorting the list. *)
Lemma insert_sorted_fmap {A B : Type} (f : A -> B) (lt : B -> B -> bool) (x : A) (l : list A) :
  insert_sorted lt (f x) (f <$> l) = f <$> insert_sorted (fun a b => lt (f a) (f b)) x l.
Proof.
  induction l as [|y l IH]; simpl; [ reflexivity | ].
  destruct (lt (f y) (f x)); simpl; [ | reflexivity ].
  f_equal. exact IH.
Qed.

Lemma list_sort_fmap {A B : Type} (f : A -> B) (lt : B -> B -> bool) (l : list A) :
  list_sort lt (f <$> l) = f <$> list_sort (fun a b => lt (f a) (f b)) l.
Proof.
  induction l as [|x l IH]; [ reflexivity | ].
  rewrite fmap_cons. cbn [list_sort]. rewrite IH. apply insert_sorted_fmap.
Qed.

Lemma triage_key_lt_asym (p q : Patient) :
  triage_key_lt p q = true -> triage_key_lt q p = false.
Proof. unfold triage_key_lt. lia. Qed.

Lemma not_after_key_le (p q : Patient) :
  not_after triage_key_lt p q <-> key_le (triage_key p) (triage_key q).
Proof. unfold not_after, triage_key_lt, key_le, triage_key; simpl. lia. Qed.

Lemma key_le_trans (a b c : Z * Z) : key_le a b -> key_le b c -> key_le a c.
Proof. unfold key_le. lia. Qed.

(** [patient_list] is in canonical order. *)
Lemma list_sort_triage_sorted (l : list Patient) :
  StronglySorted key_le (triage_key <$> list_sort triage_key_lt l).
Proof.
  apply (StronglySorted_fmap triage_key (not_after triage_key_lt)).
  - intros p q. apply not_after_key_le.
  - apply list_sort_StronglySorted.
    + apply triage_key_lt_asym.
    + intros a b c. rewrite !not_after_key_le. apply key_le_trans.
Qed.

(** ** The dict built by [get_patients] *)

Lemma dict_set_fresh {V : Type} (k : string) (v : V) (d : list (string * V)) :
  k ∉ d.*1 -> dict_set k v d = d ++ [(k, v)].
Proof.
  induction d as [|[k' v'] d IH]; simpl; [ reflexivity | ].
  intros Hk. case_decide as Hkk.
  - subst. exfalso. apply Hk. left.
  - f_equal. apply IH. intros Hin. apply Hk. right. exact Hin.
Qed.

Lemma dict_set_values {V : Type} (k : string) (v : V) (d : list (string * V)) (x : V) :
  x ∈ (dict_set k v d).*2 -> x = v \/ x ∈ d.*2.
Proof.
  induction d as [|[k' v'] d IH]; simpl.
  - intros Hx. apply list_elem_of_singleton in Hx. auto.
  - case_decide; simpl; rewrite !elem_of_cons; intros [Hx|Hx]; auto.
    apply IH in Hx. tauto.
Qed.

Lemma foldl_dict_values (l : list (string * Patient)) (d : list (string * Patient)) (x : Patient) :
  x ∈ (foldl dict_add d l).*2 -> x ∈ d.*2 \/ x ∈ l.*2.
Proof.
  revert d. induction l as [|kp l IH]; simpl; intros d Hx; [ auto | ].
  apply IH in Hx as [Hx|Hx].
  - apply dict_set_values in Hx as [->|Hx]; [ right; left | left; exact Hx ].
  - right. right. exact Hx.
Qed.

Lemma foldl_dict_fresh (l : list (string * Patient)) (d : list (string * Patient)) :
  NoDup (d.*1 ++ ((fun kp => id (snd kp)) <$> l)) ->
  foldl dict_add d l = d ++ ((fun kp => (id (snd kp), snd kp)) <$> l).
Proof.
  revert d. induction l as [|kp l IH]; simpl; intros d Hnd.
  - rewrite app_nil_r. reflexivity.
  - unfold dict_add at 2. rewrite dict_set_fresh.
    + rewrite IH.
      * rewrite <- app_assoc. reflexivity.
      * rewrite fmap_app. simpl. rewrite <- app_assoc. exact Hnd.
    + apply NoDup_app in Hnd as (_ & Hd & _).
      intros Hin. apply (Hd _ Hin). left.
Qed.

Lemma get_patients_eq (o : Oracle) (w : World) :
  get_patients o w = (w, Ok (scanned o w)).
Proof. reflexivity. Qed.

(** Every patient of the pass is a stored patient. *)
Lemma patient_list_stored (o : Oracle) (w : World) (p : Patient) :
  scan_ok o -> p ∈ patient_list o w -> exists k, patients w !! k = Some p.
Proof.
  intros Hscan Hp. unfold patient_list in Hp.
  rewrite list_sort_perm in Hp.
  apply foldl_dict_values in Hp as [Hp|Hp]; [ inversion Hp | ].
  apply list_elem_of_fmap in Hp as ([k p'] & -> & Hin).
  rewrite (Hscan (patients w)) in Hin.
  apply elem_of_map_to_list in Hin. eauto.
Qed.

(** With the keys as [add_patient] writes them, the pass sees the stored
    patients, each once. *)
Lemma scanned_keyed (o : Oracle) (w : World) :
  scan_ok o -> keyed_by_id (patients w) ->
  scanned o w = (fun kp => (id (snd kp), snd kp)) <$> scan_iter o (patients w)
  /\ snd <$> scanned o w ≡ₚ snd <$> map_to_list (patients w)
  /\ NoDup (id <$> (snd <$> scanned o w)).
Proof.
  intros Hscan Hkey.
  assert (((fun kp => id (snd kp)) <$> scan_iter o (patients w))
          = fst <$> scan_iter o (patients w)) as Hids.
  { apply list_fmap_ext. intros i [k p] Hi. simpl.
    apply Hkey. apply elem_of_map_to_list. rewrite <- (Hscan (patients w)).
    apply list_elem_of_lookup. eauto. }
  assert (NoDup (fst <$> scan_iter o (patients w))) as Hnd.
  { rewrite (Hscan (patients w)). apply NoDup_fst_map_to_list. }
  assert (scanned o w = (fun kp => (id (snd kp), snd kp)) <$> scan_iter o (patients w)) as Heq.
  { unfold scanned. change (foldl _ [] ?l) with (foldl dict_add [] l).
    rewrite foldl_dict_fresh; [ reflexivity | ]. simpl. rewrite Hids. exact Hnd. }
  split; [ exact Heq | ].
  rewrite Heq, <- !list_fmap_compose.
  split.
  - change ((snd ∘ _) <$> _) with (snd <$> scan_iter o (patients w)).
    rewrite (Hscan (patients w)). reflexivity.
  - change ((id ∘ _) <$> _) with ((fun kp => id (snd kp)) <$> scan_iter o (patients w)).
    rewrite Hids. exact Hnd.
Qed.

Lemma patient_list_keyed (o : Oracle) (w : World) :
  scan_ok o -> keyed_by_id (patients w) ->
  patient_list o w ≡ₚ snd <$> map_to_list (patients w)
  /\ NoDup (id <$> patient_list o w)
  /\ (forall p, p ∈ patient_list o w <-> patients w !! id p = Some p).
Proof.
  intros Hscan Hkey.
  destruct (scanned_keyed o w Hscan Hkey) as (_ & Hperm & Hnd).
  assert (patient_list o w ≡ₚ snd <$> map_to_list (patients w)) as Hp.
  { unfold patient_list. rewrite list_sort_perm. exact Hperm. }
  split; [ exact Hp | ]. split.
  - unfold patient_list. rewrite list_sort_perm. exact Hnd.
  - intros p. rewrite Hp. rewrite list_elem_of_fmap. split.
    + intros ([k p'] & -> & Hin). apply elem_of_map_to_list in Hin.
      simpl. rewrite (Hkey _ _ Hin). exact Hin.
    + intros Hl. exists (id p, p). split; [ reflexivity | ].
      apply elem_of_map_to_list. exact Hl.
Qed.

(** ** What a computation leaves alone *)

Global Instance same_preorder {X : Type} (f : World -> X) : PreOrder (same f).
Proof.
  split; [ intros w; reflexivity | intros w1 w2 w3 H1 H2 ].
  unfold same in *. congruence.
Qed.

Global Instance keyed_after_preorder : PreOrder keyed_after.
Proof. split; [ intros w H; exact H | intros w1 w2 w3 H1 H2 H; auto ]. Qed.

Section stable.
Context (R : relation World) `{!PreOrder R}.

Lemma stable_ret {A : Type} (a : A) : stable R (ret a).
Proof. intros w. simpl. reflexivity. Qed.

Lemma stable_raise {A : Type} (e : exn) : stable R (raise e : St World A).
Proof. intros w. simpl. reflexivity. Qed.

Lemma stable_get_patients (o : Oracle) : stable R (get_patients o).
Proof. intros w. rewrite get_patients_eq. simpl. reflexivity. Qed.

Lemma stable_bind {A B : Type} (m : St World A) (k : A -> St World B) :
  stable R m -> (forall a, stable R (k a)) -> stable R (bind m k).
Proof.
  intros Hm Hk w. unfold bind. specialize (Hm w).
  destruct (m w) as [w1 [a|e]]; simpl in *; [ | exact Hm ].
  transitivity w1; [ exact Hm | apply Hk ].
Qed.

Lemma stable_for_each {A : Type} (l : list A) (body : A -> St World unit) :
  (forall a, stable R (body a)) -> stable R (for_each l body).
Proof.
  intros Hb. induction l as [|a l IH]; simpl.
  - apply stable_ret.
  - apply stable_bind; [ apply Hb | intros _; exact IH ].
Qed.

(** The primitives the engine is built from. *)
Variable o : Oracle.
Hypothesis add_stable : forall q, stable R (add_patient q).
Hypothesis remove_stable : forall k, stable R (remove_patient k).
Hypothesis stamp_stable : forall t, stable R (set_last_update t).
Hypothesis draw_stable : stable R (draw_choice o).
Hypothesis mock_stable : stable R (generate_mock_patient o).

Lemma assign_position_stable (p : Patient) (g : Z) (c : gmap Z Z) :
  stable R (assign_position p g c).
Proof.
  unfold assign_position.
  destruct (c !! triage_category p); [ | apply stable_raise ].
  apply stable_bind; [ apply add_stable | intros _; apply stable_ret ].
Qed.

Lemma first_pass_stable (l : list Patient) : stable R (first_pass o l).
Proof.
  induction l as [|p l IH]; simpl; [ apply stable_ret | ].
  destruct (is_terminal _).
  - apply stable_bind; [ apply remove_stable | intros _ ].
    apply stable_bind; [ exact IH | intros ?; apply stable_ret ].
  - apply stable_bind; [ exact draw_stable | intros u ].
    destruct (progress_patient_phase u p) as [p' [[]|e]]; [ | apply stable_raise ].
    apply stable_bind; [ exact IH | intros ?; apply stable_ret ].
Qed.

Lemma renumber_stable (marked : list (Patient * bool)) (g : Z) (c : gmap Z Z) :
  stable R (renumber marked g c).
Proof.
  revert g c.
  induction marked as [|[p b] l IH]; intros g c; simpl; [ apply stable_ret | ].
  destruct b; [ apply IH | ].
  apply stable_bind; [ apply assign_position_stable | intros [g' c'] ].
  apply IH.
Qed.

Lemma replace_removed_stable (n : nat) (g : Z) (c : gmap Z Z) :
  stable R (replace_removed o n g c).
Proof.
  revert g c.
  induction n as [|n IH]; intros g c; simpl; [ apply stable_ret | ].
  apply stable_bind; [ exact mock_stable | intros p ].
  apply stable_bind; [ apply assign_position_stable | intros [g' c'] ].
  apply IH.
Qed.

Lemma generate_mock_patients_stable (n : nat) : stable R (generate_mock_patients o n).
Proof.
  induction n as [|n IH]; simpl; [ apply stable_ret | ].
  apply stable_bind; [ exact mock_stable | intros p ].
  apply stable_bind; [ exact IH | intros ps; apply stable_ret ].
Qed.

Lemma number_all_stable (l : list Patient) (g : Z) (c : gmap Z Z) :
  stable R (number_all l g c).
Proof.
  revert g c.
  induction l as [|p l IH]; intros g c; simpl; [ apply stable_ret | ].
  destruct (c !! triage_category p); [ | apply stable_raise ].
  apply stable_bind; [ apply add_stable | intros _ ].
  apply stable_bind; [ apply IH | intros ?; apply stable_ret ].
Qed.

(** The pass after line 70. *)
Lemma pass_body_stable (d : list (string * Patient)) :
  stable R
    (let* marked := first_pass o (list_sort triage_key_lt (snd <$> d)) in
     let* counters :=
       match removed_patients marked with
       | [] => ret None
       | _ :: _ =>
           let* (g, c) := renumber marked 1 initial_category_positions in
           let* (g', c') := replace_removed o (length (removed_patients marked)) g c in
           ret (Some (g', c'))
       end in
     if (Z.of_nat (length d) <? 30) && growth_fires o then
       let* new_patient := generate_mock_patient o in
       match counters with
       | None => raise UnboundLocalError
       | Some (global_pos, category_positions) =>
           match category_positions !! triage_category new_patient with
           | None => raise KeyError
           | Some c =>
               add_patient
                 (with_queue_position (mkQueuePosition global_pos c) new_patient)
           end
       end
     else ret tt).
Proof.
  apply stable_bind; [ apply first_pass_stable | intros marked ].
  apply stable_bind.
  - destruct (removed_patients marked); [ apply stable_ret | ].
    apply stable_bind; [ apply renumber_stable | intros [g c] ].
    apply stable_bind; [ apply replace_removed_stable | intros [g' c'] ].
    apply stable_ret.
  - intros counters. destruct (_ && _); [ | apply stable_ret ].
    apply stable_bind; [ exact mock_stable | intros p ].
    destruct counters as [[g c]|]; [ | apply stable_raise ].
    destruct (c !! triage_category p); [ | apply stable_raise ].
    apply add_stable.
Qed.

Lemma update_patients_stable : stable R (update_patients o).
Proof.
  unfold update_patients.
  apply stable_bind; [ apply stable_get_patients | intros d ].
  apply stable_bind; [ apply stamp_stable | intros _ ].
  apply pass_body_stable.
Qed.

Lemma schedule_stable : stable R (schedule o).
Proof.
  intros w. unfold schedule. unfold bind at 1. unfold get at 1.
  destruct (last_update w) as [t|]; [ | apply stamp_stable ].
  match goal with |- R w (fst (?m w)) => assert (stable R m) as Hm; [ | apply Hm ] end.
  apply stable_bind.
  - apply stable_for_each. intros _. apply update_patients_stable.
  - intros _. destruct (0 <? _); [ apply stamp_stable | apply stable_ret ].
Qed.

(** Lines 149-182: what follows the scheduler. *)
Lemma get_queue_after_schedule (sort_arg : option string) (w : World) :
  R (fst (schedule o w)) (fst (get_queue o sort_arg w)).
Proof.
  unfold get_queue. unfold bind at 1.
  destruct (schedule o w) as [w1 [[]|e]]; [ | simpl; reflexivity ].
  match goal with |- R _ (fst (?m w1)) =>
    assert (stable R m) as Hp; [ | exact (Hp w1) ] end.
  apply stable_bind; [ apply stable_get_patients | intros d ].
  apply stable_bind.
  - destruct (snd <$> d); [ | apply stable_ret ].
    apply stable_bind; [ apply generate_mock_patients_stable | intros ps ].
    apply number_all_stable.
  - intros l. destruct (respond o _ l); [ apply stable_ret | apply stable_raise ].
Qed.

Lemma get_queue_stable (sort_arg : option string) : stable R (get_queue o sort_arg).
Proof.
  intros w. transitivity (fst (schedule o w)).
  - apply schedule_stable.
  - apply get_queue_after_schedule.
Qed.
End stable.

(** X16: a request keeps the keys of the store the ids of its entries,
    however it ends: [add_patient] writes under the id, everything else
    only deletes or leaves the keyspace alone. *)
Lemma get_queue_keyed (o : Oracle) (sort_arg : option string) (w : World) :
  keyed_by_id (patients w) -> keyed_by_id (patients (fst (get_queue o sort_arg w))).
Proof.
  apply (get_queue_stable keyed_after o); try (intros; intros ? H; exact H).
  - intros q w0 H k p. simpl. rewrite lookup_insert.
    case_decide; [ intros [= <-]; congruence | apply H ].
  - intros i w0 H k p. simpl. rewrite lookup_delete.
    case_decide; [ discriminate | apply H ].
Qed.

Lemma update_patients_keyed (o : Oracle) (w : World) :
  keyed_by_id (patients w) -> keyed_by_id (patients (fst (update_patients o w))).
Proof.
  apply (update_patients_stable keyed_after o); try (intros; intros ? H; exact H).
  - intros q w0 H k p. simpl. rewrite lookup_insert.
    case_decide; [ intros [= <-]; congruence | apply H ].
  - intros i w0 H k p. simpl. rewrite lookup_delete.
    case_decide; [ discriminate | apply H ].
Qed.

(** Everything in a pass after line 70 leaves ['last_update'] alone, so
    the pass ends, or raises, with its own clock reading stored. *)
Lemma update_patients_last_update (o : Oracle) (w : World) :
  last_update (fst (update_patients o w)) = Some (now_pass o).
Proof.
  unfold update_patients.
  unfold bind at 1. rewrite get_patients_eq.
  unfold bind at 1. unfold set_last_update at 1, modify at 1.
  match goal with |- last_update (fst (?m ?w')) = _ =>
    assert (stable (same last_update) m) as Hp; [ | rewrite (Hp w'); reflexivity ] end.
  apply (pass_body_stable (same last_update) o); intros; intros ?; reflexivity.
Qed.

(** ** The first loop *)

Lemma purge_lookup (ids : list string) (m : gmap string Patient) (k : string) :
  purge ids m !! k = if decide (k ∈ ids) then None else m !! k.
Proof.
  unfold purge. revert m. induction ids as [|i ids IH]; intros m; simpl.
  - destruct (decide (k ∈ [])) as [H|H]; [ | reflexivity ].
    apply not_elem_of_nil in H. contradiction.
  - rewrite IH.
    destruct (decide (k ∈ ids)) as [H|H]; destruct (decide (k ∈ i :: ids)) as [H0|H0];
      try reflexivity.
    + exfalso. apply H0. right. exact H.
    + apply elem_of_cons in H0 as [->|H0]; [ | contradiction ].
      apply lookup_delete_eq.
    + rewrite lookup_delete_ne; [ reflexivity | ].
      intros ->. apply H0. left.
Qed.

Lemma store_all_app (l1 l2 : list Patient) (m : gmap string Patient) :
  store_all (l1 ++ l2) m = store_all l2 (store_all l1 m).
Proof. unfold store_all. apply foldl_app. Qed.

Lemma store_all_lookup_fresh (l : list Patient) (m : gmap string Patient) (k : string) :
  k ∉ id <$> l -> store_all l m !! k = m !! k.
Proof.
  unfold store_all. revert m. induction l as [|p l IH]; intros m Hk; simpl; [ reflexivity | ].
  rewrite IH.
  - apply lookup_insert_ne. intros Hp. apply Hk. rewrite <- Hp. left.
  - intros Hin. apply Hk. right. exact Hin.
Qed.

Lemma store_all_lookup_is_Some (l : list Patient) (m : gmap string Patient) (k : string) :
  is_Some (m !! k) -> is_Some (store_all l m !! k).
Proof.
  unfold store_all. revert m. induction l as [|p l IH]; intros m Hk; simpl; [ exact Hk | ].
  apply IH. rewrite lookup_insert. case_decide; [ eauto | exact Hk ].
Qed.

(** The last patient stored under an id is the one the store holds. *)
Lemma store_all_lookup_last (l1 l2 : list Patient) (p : Patient) (m : gmap string Patient) :
  id p ∉ id <$> l2 -> store_all (l1 ++ p :: l2) m !! id p = Some p.
Proof.
  intros Hk. rewrite store_all_app. simpl.
  change (foldl _ ?m0 l2) with (store_all l2 m0).
  rewrite store_all_lookup_fresh by exact Hk.
  apply lookup_insert_eq.
Qed.

Lemma dead_cons (p : Patient) (l : list Patient) :
  dead (p :: l) = if is_terminal (current_phase (status p)) then p :: dead l else dead l.
Proof.
  unfold dead. rewrite filter_cons.
  destruct (decide (terminal p)) as [H|H]; unfold terminal in H.
  - rewrite H. reflexivity.
  - destruct (is_terminal _); [ congruence | reflexivity ].
Qed.

Lemma live_cons (p : Patient) (l : list Patient) :
  live (p :: l) = if is_terminal (current_phase (status p)) then live l else p :: live l.
Proof.
  unfold live. rewrite filter_cons.
  destruct (decide (~ terminal p)) as [H|H]; unfold terminal in H.
  - destruct (is_terminal _); [ congruence | reflexivity ].
  - destruct (is_terminal _); [ reflexivity | exfalso; apply H; discriminate ].
Qed.

Lemma removed_patients_cons (p : Patient) (b : bool) (m : list (Patient * bool)) :
  removed_patients ((p, b) :: m)
  = if b then p :: removed_patients m else removed_patients m.
Proof.
  unfold removed_patients. rewrite filter_cons.
  destruct (decide (snd (p, b) = true)) as [H|H]; simpl in H.
  - rewrite H. reflexivity.
  - destruct b; [ congruence | reflexivity ].
Qed.

Lemma survivors_of_cons (p : Patient) (b : bool) (m : list (Patient * bool)) :
  survivors_of ((p, b) :: m) = if b then survivors_of m else p :: survivors_of m.
Proof.
  unfold survivors_of. rewrite filter_cons.
  destruct (decide (snd (p, b) = false)) as [H|H]; simpl in H.
  - rewrite H. reflexivity.
  - destruct b; [ reflexivity | congruence ].
Qed.

(** What the first loop does when it runs to its end. *)
Lemma first_pass_ok (o : Oracle) (l : list Patient) (w w' : World)
    (marked : list (Patient * bool)) :
  first_pass o l w = (w', Ok marked) ->
  Forall2 marks l marked
  /\ patients w' = purge (id <$> dead l) (patients w).
Proof.
  revert w w' marked. induction l as [|p l IH]; intros w w' marked; simpl.
  - unfold ret. intros [= <- <-]. split; [ constructor | reflexivity ].
  - rewrite dead_cons. destruct (is_terminal (current_phase (status p))) eqn:Ht.
    + unfold bind at 1. unfold remove_patient at 1, modify at 1.
      unfold bind at 1.
      destruct (first_pass o l _) as [w1 [m1|e]] eqn:E; [ | discriminate ].
      unfold ret. intros [= <- <-].
      apply IH in E as [HF Hp]. split.
      * constructor; [ | exact HF ].
        split; [ simpl; congruence | ]. split; [ reflexivity | discriminate ].
      * rewrite Hp. reflexivity.
    + unfold bind at 1. unfold draw_choice at 1.
      destruct (progress_patient_phase _ p) as [p' [[]|e]] eqn:Ep;
        [ | unfold raise; discriminate ].
      unfold bind at 1.
      destruct (first_pass o l _) as [w1 [m1|e]] eqn:E; [ | discriminate ].
      unfold ret. intros [= <- <-].
      apply IH in E as [HF Hp]. split.
      * constructor; [ | exact HF ].
        split; [ simpl; congruence | ]. split; [ discriminate | ].
        intros _. eexists. exact Ep.
      * rewrite Hp. reflexivity.
Qed.

Lemma marks_removed (l : list Patient) (marked : list (Patient * bool)) :
  Forall2 marks l marked -> removed_patients marked = dead l.
Proof.
  induction 1 as [|p [p' b] l m (Hb & Ht & Hf) HF IH]; [ reflexivity | ].
  rewrite dead_cons, removed_patients_cons. simpl in *. rewrite <- Hb.
  destruct b; [ | exact IH ].
  rewrite IH, Ht; reflexivity.
Qed.

Lemma marks_survivors (l : list Patient) (marked : list (Patient * bool)) :
  Forall2 marks l marked ->
  Forall2 (fun p p' => exists u, progress_patient_phase u p = (p', Ok tt))
          (live l) (survivors_of marked).
Proof.
  induction 1 as [|p [p' b] l m (Hb & Ht & Hf) HF IH]; [ constructor | ].
  rewrite live_cons, survivors_of_cons. simpl in *. rewrite <- Hb.
  destruct b; [ exact IH | ].
  constructor; [ auto | exact IH ].
Qed.

(** With no terminal patient in the list the loop touches neither the
    keyspace nor the history, however it ends, and removes nobody. *)
Lemma first_pass_no_terminal (o : Oracle) (l : list Patient) (w : World) :
  dead l = [] ->
  patients (fst (first_pass o l w)) = patients w
  /\ forall marked, snd (first_pass o l w) = Ok marked -> removed_patients marked = [].
Proof.
  revert w. induction l as [|p l IH]; intros w; simpl.
  - intros _. split; [ reflexivity | ]. intros marked [= <-]. reflexivity.
  - rewrite dead_cons. destruct (is_terminal (current_phase (status p))) eqn:Ht;
      [ discriminate | ].
    intros Hd. unfold bind at 1 3. unfold draw_choice at 1 2.
    destruct (progress_patient_phase _ p) as [p' [[]|e]] eqn:Ep;
      [ | split; [ reflexivity | discriminate ] ].
    unfold bind.
    match goal with |- context [first_pass o l ?w1] =>
      destruct (IH w1 Hd) as [IH1 IH2];
      destruct (first_pass o l w1) as [w2 [m1|e]] eqn:E end; simpl in *.
    + split; [ exact IH1 | ]. intros marked [= <-].
      rewrite removed_patients_cons. apply IH2. reflexivity.
    + split; [ exact IH1 | discriminate ].
Qed.

(** ** Numbering *)

Lemma initial_category_positions_lookup (k ck : Z) :
  initial_category_positions !! k = Some ck -> ck = 1 /\ 1 <= k <= 5.
Proof.
  unfold initial_category_positions. simpl.
  repeat (rewrite lookup_insert; case_decide; [ intros [= <-]; lia | ]).
  rewrite lookup_empty. discriminate.
Qed.

Lemma one_to_S (n : nat) : one_to (S n) = one_to n ++ [Z.of_nat (S n)].
Proof. unfold one_to. rewrite seq_S, fmap_app. reflexivity. Qed.

Lemma counters_after_initial : counters_after [] 1 initial_category_positions.
Proof.
  split; [ reflexivity | ].
  intros k ck Hk. apply initial_category_positions_lookup in Hk as [-> _]. reflexivity.
Qed.

Lemma positions_dense_nil : positions_dense [].
Proof. split; [ reflexivity | intros k; reflexivity ]. Qed.

(** Numbering one more patient keeps the numbering dense and the
    counters in step with it. *)
Lemma numbering_step (acc : list Patient) (g : Z) (c : gmap Z Z) (p : Patient) (ck : Z) :
  counters_after acc g c -> positions_dense acc ->
  c !! triage_category p = Some ck ->
  let p' := with_queue_position (mkQueuePosition g ck) p in
  counters_after (acc ++ [p']) (g + 1) (<[triage_category p := ck + 1]> c)
  /\ positions_dense (acc ++ [p']).
Proof.
  intros [Hg Hc] [Hdg Hdc] Hck p'.
  assert (triage_category p' = triage_category p) as Hcat by reflexivity.
  assert (forall k, filter (fun q => triage_category q = k) (acc ++ [p'])
                    = filter (fun q => triage_category q = k) acc
                      ++ (if decide (triage_category p = k) then [p'] else [])) as Hfilter.
  { intros k. rewrite filter_app, filter_cons, filter_nil, Hcat.
    destruct (decide (triage_category p = k)); reflexivity. }
  split; split.
  - rewrite length_app. simpl. lia.
  - intros k ck'. rewrite Hfilter, lookup_insert.
    destruct (decide (triage_category p = k)) as [Hk|Hk].
    + intros [= <-]. rewrite length_app. simpl.
      subst k. apply Hc in Hck. lia.
    + intros Hk'. rewrite app_nil_r. apply Hc. exact Hk'.
  - unfold global_positions in *. rewrite fmap_app, Hdg, length_app. simpl.
    replace (length acc + 1)%nat with (S (length acc)) by lia.
    rewrite one_to_S. f_equal. f_equal. exact Hg.
  - intros k. unfold category_positions_in in *. rewrite Hfilter.
    destruct (decide (triage_category p = k)) as [Hk|Hk].
    + rewrite fmap_app, (Hdc k), length_app. simpl.
      replace (length (filter (fun q => triage_category q = k) acc) + 1)%nat
        with (S (length (filter (fun q => triage_category q = k) acc))) by lia.
      rewrite one_to_S. f_equal. f_equal. subst k. apply Hc. exact Hck.
    + rewrite app_nil_r. apply Hdc.
Qed.

Lemma assign_position_ok (p : Patient) (g : Z) (c : gmap Z Z) (w w' : World) (g' : Z)
    (c' : gmap Z Z) :
  assign_position p g c w = (w', Ok (g', c')) ->
  exists ck,
    c !! triage_category p = Some ck
    /\ w' = fst (add_patient (with_queue_position (mkQueuePosition g ck) p) w)
    /\ g' = g + 1 /\ c' = <[triage_category p := ck + 1]> c.
Proof.
  unfold assign_position. destruct (c !! triage_category p) as [ck|]; [ | discriminate ].
  intros [= <- <- <-]. exists ck. auto.
Qed.

(** The loop of lines 96-104, run to its end from counters that match
    the patients numbered so far. *)
Lemma renumber_ok (marked : list (Patient * bool)) (acc : list Patient) (g : Z)
    (c : gmap Z Z) (w w' : World) (g' : Z) (c' : gmap Z Z) :
  counters_after acc g c -> positions_dense acc ->
  renumber marked g c w = (w', Ok (g', c')) ->
  exists l,
    Forall2 positioned (survivors_of marked) l
    /\ patients w' = store_all l (patients w)
    /\ added w' = added w ++ l
    /\ mocks w' = mocks w
    /\ counters_after (acc ++ l) g' c'
    /\ positions_dense (acc ++ l).
Proof.
  revert acc g c w.
  induction marked as [|[p b] marked IH]; intros acc g c w Hc Hd; simpl.
  - intros [= <- <- <-]. exists []. rewrite !app_nil_r.
    split_and!; try assumption; try reflexivity. constructor.
  - rewrite survivors_of_cons. destruct b; [ apply IH; assumption | ].
    unfold bind at 1.
    destruct (assign_position p g c w) as [w1 [[g1 c1]|e]] eqn:E; [ | discriminate ].
    apply assign_position_ok in E as (ck & Hck & -> & -> & ->).
    destruct (numbering_step acc g c p ck Hc Hd Hck) as [Hc1 Hd1].
    intros Hr. apply IH with (acc := acc ++ [with_queue_position (mkQueuePosition g ck) p])
      in Hr as (l & HF & Hp & Ha & Hm & Hc' & Hd'); try assumption.
    exists (with_queue_position (mkQueuePosition g ck) p :: l).
    rewrite <- !app_assoc in *. simpl in *.
    split_and!; try assumption.
    + constructor; [ eexists; reflexivity | exact HF ].
    + rewrite Ha, <- app_assoc. reflexivity.
Qed.

(** The loop of lines 107-115, likewise. *)
Lemma replace_removed_ok (o : Oracle) (n : nat) (acc : list Patient) (g : Z)
    (c : gmap Z Z) (w w' : World) (g' : Z) (c' : gmap Z Z) :
  counters_after acc g c -> positions_dense acc ->
  replace_removed o n g c w = (w', Ok (g', c')) ->
  exists l,
    Forall2 positioned (mock_patient o <$> seq (mocks w) n) l
    /\ patients w' = store_all l (patients w)
    /\ added w' = added w ++ l
    /\ mocks w' = (mocks w + n)%nat
    /\ counters_after (acc ++ l) g' c'
    /\ positions_dense (acc ++ l).
Proof.
  revert acc g c w.
  induction n as [|n IH]; intros acc g c w Hc Hd; simpl.
  - intros [= <- <- <-]. exists []. rewrite !app_nil_r.
    split_and!; try assumption; try reflexivity; try lia. constructor.
  - unfold bind at 1. unfold generate_mock_patient at 1.
    unfold bind at 1.
    destruct (assign_position _ g c _) as [w1 [[g1 c1]|e]] eqn:E; [ | discriminate ].
    apply assign_position_ok in E as (ck & Hck & -> & -> & ->).
    destruct (numbering_step acc g c _ ck Hc Hd Hck) as [Hc1 Hd1].
    intros Hr. eapply IH in Hr as (l & HF & Hp & Ha & Hm & Hc' & Hd'); try eassumption.
    exists (with_queue_position (mkQueuePosition g ck) (mock_patient o (mocks w)) :: l).
    rewrite <- !app_assoc in *. simpl in *.
    split_and!; try assumption; try lia.
    + constructor; [ eexists; reflexivity | exact HF ].
    + rewrite Ha, <- app_assoc. reflexivity.
Qed.

(** ** The pass as a whole *)

(** A pass that runs to its end either found no terminal patient, and
    then wrote nothing, or removed the terminal patients, stored the
    renumbered survivors, then the replacements, then the growth patient
    if one is due, all numbered densely in that order. *)
Lemma update_patients_ok (o : Oracle) (w w' : World) :
  update_patients o w = (w', Ok tt) ->
  last_update w' = Some (now_pass o)
  /\ ((dead (patient_list o w) = []
       /\ growth_due o w = false
       /\ patients w' = patients w /\ added w' = added w)
      \/ (dead (patient_list o w) <> []
          /\ exists marked survivors replacements extra,
               Forall2 marks (patient_list o w) marked
               /\ Forall2 positioned (survivors_of marked) survivors
               /\ Forall2 positioned
                    (mock_patient o <$> seq (mocks w) (length (dead (patient_list o w))))
                    replacements
               /\ Forall2 positioned
                    (if growth_due o w
                     then [mock_patient o (mocks w + length (dead (patient_list o w)))]
                     else [])
                    extra
               /\ positions_dense (survivors ++ replacements)
               /\ positions_dense (survivors ++ replacements ++ extra)
               /\ patients w'
                  = store_all (survivors ++ replacements ++ extra)
                      (purge (id <$> dead (patient_list o w)) (patients w))
               /\ added w' = added w ++ survivors ++ replacements ++ extra)).
Proof.
  intros Hrun. split.
  { rewrite <- (update_patients_last_update o w), Hrun. reflexivity. }
  revert Hrun. unfold update_patients.
  unfold bind at 1. rewrite get_patients_eq.
  unfold bind at 1. unfold set_last_update at 1, modify at 1.
  unfold bind at 1. fold (patient_list o w).
  destruct (first_pass o (patient_list o w) _) as [w1 [marked|e]] eqn:E1; [ | discriminate ].
  match type of E1 with first_pass _ _ ?w0 = _ =>
    pose proof (first_pass_stable (same added) o
                  (fun k w => eq_refl) (fun w => eq_refl) (patient_list o w) w0) as Ha1;
    pose proof (first_pass_stable (same mocks) o
                  (fun k w => eq_refl) (fun w => eq_refl) (patient_list o w) w0) as Hm1
  end.
  unfold same in Ha1, Hm1. rewrite E1 in Ha1, Hm1. simpl in Ha1, Hm1.
  apply first_pass_ok in E1 as [HF Hp1]. simpl in Hp1.
  rewrite (marks_removed _ _ HF).
  fold (growth_due o w).
  destruct (dead (patient_list o w)) as [|d ds] eqn:Hdead.
  - (* nobody removed *)
    unfold bind at 1. unfold ret at 1.
    destruct (growth_due o w).
    + unfold bind, generate_mock_patient, raise. discriminate.
    + unfold ret. intros [= <-]. left.
      split_and!; try reflexivity; assumption.
  - (* somebody removed *)
    unfold bind at 1. unfold bind at 1.
    destruct (renumber marked 1 initial_category_positions w1)
      as [w2 [[g c]|e]] eqn:E2; [ | discriminate ].
    apply (renumber_ok marked []) in E2
      as (survivors & HS & Hp2 & Ha2 & Hm2 & Hc2 & Hd2);
      [ | apply counters_after_initial | apply positions_dense_nil ].
    simpl in Hc2, Hd2.
    unfold bind at 1.
    destruct (replace_removed o _ g c w2) as [w3 [[g3 c3]|e]] eqn:E3; [ | discriminate ].
    apply (replace_removed_ok o _ survivors) in E3
      as (replacements & HR & Hp3 & Ha3 & Hm3 & Hc3 & Hd3); try assumption.
    unfold ret at 1.
    intros Hrun. right. split; [ discriminate | ].
    exists marked, survivors, replacements.
    destruct (growth_due o w).
    + unfold bind at 1, generate_mock_patient at 1 in Hrun.
      destruct (c3 !! triage_category (mock_patient o (mocks w3))) as [ck|] eqn:Hck;
        [ | discriminate ].
      injection Hrun as <-.
      destruct (numbering_step _ g3 c3 _ ck Hc3 Hd3 Hck) as [_ Hd4].
      eexists [_]. rewrite <- app_assoc in Hd4. simpl.
      split_and!; try eassumption.
      * rewrite Hm2, Hm1 in HR. exact HR.
      * constructor; [ | constructor ].
        rewrite Hm3, Hm2, Hm1. eexists; reflexivity.
      * simpl. rewrite Hp3, Hp2, Hp1, !store_all_app. reflexivity.
      * rewrite Ha3, Ha2, Ha1. simpl. rewrite <- !app_assoc. reflexivity.
    + injection Hrun as <-.
      exists []. rewrite !app_nil_r.
      split_and!; try eassumption.
      * rewrite Hm2, Hm1 in HR. exact HR.
      * constructor.
      * rewrite Hp3, Hp2, Hp1, store_all_app. reflexivity.
      * rewrite Ha3, Ha2, Ha1. simpl. rewrite <- !app_assoc. reflexivity.
Qed.

(** ** Survivors, replacements and the store *)

Lemma positioned_fields (p a : Patient) :
  positioned p a ->
  id a = id p /\ triage_category a = triage_category p
  /\ arrival_time a = arrival_time p /\ status a = status p.
Proof. intros [q ->]. auto. Qed.

Lemma progress_ok_fields (u : bool) (p p' : Patient) :
  progress_patient_phase u p = (p', Ok tt) ->
  id p' = id p /\ triage_category p' = triage_category p
  /\ arrival_time p' = arrival_time p.
Proof.
  intros H. pose proof (progress_patient_phase_frame u p) as Hf.
  unfold progressed in Hf. rewrite H in Hf. simpl in Hf. tauto.
Qed.

Lemma advanced_fields (p a : Patient) :
  advanced p a ->
  id a = id p /\ triage_category a = triage_category p
  /\ arrival_time a = arrival_time p.
Proof.
  intros (u & p' & Hp & Ha).
  apply progress_ok_fields in Hp. apply positioned_fields in Ha.
  intuition congruence.
Qed.

Lemma Forall2_compose {A B C : Type} (P : A -> B -> Prop) (Q : B -> C -> Prop)
    (l1 : list A) (l2 : list B) (l3 : list C) :
  Forall2 P l1 l2 -> Forall2 Q l2 l3 ->
  Forall2 (fun a c => exists b, P a b /\ Q b c) l1 l3.
Proof.
  intros H. revert l3. induction H as [|a b l1 l2 Hab H IH]; intros l3 H3.
  - inversion H3. constructor.
  - inversion H3 as [|? c ? l3' Hbc H3']; subst.
    constructor; [ eauto | apply IH; exact H3' ].
Qed.

Lemma survivors_advanced (l : list Patient) (marked : list (Patient * bool))
    (survivors : list Patient) :
  Forall2 marks l marked -> Forall2 positioned (survivors_of marked) survivors ->
  Forall2 advanced (live l) survivors.
Proof.
  intros HF HS. apply marks_survivors in HF.
  pose proof (Forall2_compose _ _ _ _ _ HF HS) as H.
  eapply Forall2_impl; [ exact H | ].
  intros p a (p' & (u & Hu) & Ha). exists u, p'. auto.
Qed.

Lemma Forall2_fmap_eq {A B C : Type} (P : A -> B -> Prop) (f : A -> C) (g : B -> C)
    (l : list A) (k : list B) :
  (forall a b, P a b -> g b = f a) -> Forall2 P l k -> g <$> k = f <$> l.
Proof.
  intros HP. induction 1 as [|a b l k Hab H IH]; [ reflexivity | ].
  rewrite !fmap_cons, IH, (HP _ _ Hab). reflexivity.
Qed.

Lemma advanced_ids (l survivors : list Patient) :
  Forall2 advanced l survivors -> id <$> survivors = id <$> l.
Proof. apply Forall2_fmap_eq. intros a b H. apply advanced_fields in H. tauto. Qed.

Lemma advanced_keys (l survivors : list Patient) :
  Forall2 advanced l survivors -> triage_key <$> survivors = triage_key <$> l.
Proof.
  apply Forall2_fmap_eq. intros a b H. apply advanced_fields in H.
  unfold triage_key. intuition congruence.
Qed.

Lemma positioned_ids (l l' : list Patient) :
  Forall2 positioned l l' -> id <$> l' = id <$> l.
Proof. apply Forall2_fmap_eq. intros a b H. apply positioned_fields in H. tauto. Qed.

Lemma NoDup_fmap_filter {A B : Type} (f : A -> B) (P : A -> Prop)
    `{forall x, Decision (P x)} (l : list A) :
  NoDup (f <$> l) -> NoDup (f <$> filter P l).
Proof.
  induction l as [|x l IH]; [ intros _; constructor | ].
  rewrite fmap_cons, NoDup_cons, filter_cons. intros [Hx Hl].
  destruct (decide (P x)); [ | auto ].
  rewrite fmap_cons, NoDup_cons. split; [ | auto ].
  intros Hin. apply Hx.
  apply list_elem_of_fmap in Hin as (y & -> & Hy).
  apply list_elem_of_filter in Hy as [_ Hy].
  apply list_elem_of_fmap. eauto.
Qed.

Lemma StronglySorted_fmap_filter {A B : Type} (R : relation B) (f : A -> B)
    (P : A -> Prop) `{forall x, Decision (P x)} (l : list A) :
  StronglySorted R (f <$> l) -> StronglySorted R (f <$> filter P l).
Proof.
  induction l as [|x l IH]; [ intros _; constructor | ].
  rewrite fmap_cons, StronglySorted_cons, filter_cons. intros [Hx Hl].
  destruct (decide (P x)); [ | auto ].
  rewrite fmap_cons, StronglySorted_cons. split; [ | auto ].
  rewrite Forall_fmap in *. rewrite Forall_forall in *.
  intros y Hy. apply list_elem_of_filter in Hy as [_ Hy]. apply Hx, Hy.
Qed.

Lemma mock_ids_fresh (o : Oracle) (k : string) (ns : list nat) (l : list Patient) :
  (forall n, id (mock_patient o n) <> k) ->
  Forall2 positioned (mock_patient o <$> ns) l -> k ∉ id <$> l.
Proof.
  intros Hk HF. rewrite (positioned_ids _ _ HF).
  intros Hin. apply list_elem_of_fmap in Hin as (p & -> & Hp).
  apply list_elem_of_fmap in Hp as (n & -> & _). apply (Hk n). reflexivity.
Qed.

Lemma dead_elem (l : list Patient) (p : Patient) : p ∈ dead l <-> terminal p /\ p ∈ l.
Proof. unfold dead. apply (list_elem_of_filter terminal). Qed.

Lemma live_elem (l : list Patient) (p : Patient) : p ∈ live l <-> ~ terminal p /\ p ∈ l.
Proof. unfold live. apply (list_elem_of_filter (fun q => ~ terminal q)). Qed.

(** ** When the pass runs to its end *)

Lemma progress_test_completes (t : string) (p : Patient) (inv : gmap string string) :
  investigations (status p) = Some inv -> is_Some (inv !! t) ->
  exists inv',
    progress_test t p = (with_status (mkStatus (current_phase (status p)) (Some inv')) p, Ok tt)
    /\ forall t', is_Some (inv !! t') -> is_Some (inv' !! t').
Proof.
  intros Hinv [s Hs]. unfold progress_test, bind, get. rewrite Hinv, Hs.
  assert (forall v t', is_Some (inv !! t') -> is_Some (<[t := v]> inv !! t')) as Hkeep.
  { intros v t' H. rewrite lookup_insert. case_decide; [ eauto | exact H ]. }
  repeat case_decide.
  - eexists. split; [ reflexivity | apply Hkeep ].
  - eexists. split; [ reflexivity | apply Hkeep ].
  - exists inv. split; [ | auto ].
    destruct p as [i c a [ph inv0] q]. simpl in *. subst inv0. reflexivity.
Qed.

(** The state machine does not raise on a well-formed patient, and
    leaves it well-formed. *)
Lemma progress_patient_phase_completes (u : bool) (p : Patient) :
  well_formed p ->
  snd (progress_patient_phase u p) = Ok tt /\ well_formed (progressed u p).
Proof.
  intros [Hcat Hinv]. unfold progressed. rewrite progress_patient_phase_unfold.
  repeat case_decide; simpl; try (split; [ reflexivity | split; assumption ]).
  - split; [ reflexivity | split; [ exact Hcat | ] ].
    intros inv [= <-]. split; eexists; reflexivity.
  - destruct (investigations (status p)) as [inv|] eqn:E;
      [ | split; [ reflexivity | split; [ exact Hcat | discriminate ] ] ].
    destruct (Hinv inv eq_refl) as [Hl Hi].
    destruct (progress_test_completes "labs"
                (with_status (mkStatus "treatment" (Some inv)) p) inv eq_refl Hl)
      as (inv1 & E1 & K1).
    unfold bind. rewrite E1.
    match goal with |- context [progress_test "imaging" ?p1] =>
      destruct (progress_test_completes "imaging" p1 inv1 eq_refl (K1 _ Hi))
        as (inv2 & E2 & K2)
    end.
    rewrite E2. simpl.
    split; [ reflexivity | split; [ exact Hcat | ] ].
    intros inv' [= <-]. auto.
Qed.

Lemma first_pass_completes (o : Oracle) (l : list Patient) (w : World) :
  Forall well_formed l ->
  exists w' marked,
    first_pass o l w = (w', Ok marked)
    /\ Forall well_formed (fst <$> marked).
Proof.
  intros Hl. revert w. induction Hl as [|p l Hp Hl IH]; intros w; simpl.
  - eexists _, []. split; [ reflexivity | constructor ].
  - destruct (is_terminal (current_phase (status p))).
    + unfold bind at 1. unfold remove_patient at 1, modify at 1. unfold bind at 1.
      match goal with |- context [first_pass o l ?w1] =>
        destruct (IH w1) as (w' & marked & -> & Hm) end.
      eexists _, (_ :: _). split; [ reflexivity | ]. constructor; assumption.
    + unfold bind at 1. unfold draw_choice at 1.
      destruct (progress_patient_phase_completes (choices_draw o (draws w)) p Hp)
        as [Hok Hwf].
      unfold progressed in Hwf.
      destruct (progress_patient_phase _ p) as [p' r]. simpl in Hok, Hwf. subst r.
      unfold bind at 1.
      match goal with |- context [first_pass o l ?w1] =>
        destruct (IH w1) as (w' & marked & -> & Hm) end.
      eexists _, (_ :: _). split; [ reflexivity | ]. constructor; assumption.
Qed.

Lemma counters_total_initial : counters_total initial_category_positions.
Proof.
  intros k Hk. unfold initial_category_positions. simpl.
  assert (k = 1 \/ k = 2 \/ k = 3 \/ k = 4 \/ k = 5) as H by lia.
  destruct H as [->|[->|[->|[->| ->]]]]; eexists; reflexivity.
Qed.

Lemma assign_position_completes (p : Patient) (g : Z) (c : gmap Z Z) (w : World) :
  1 <= triage_category p <= 5 -> counters_total c ->
  exists w' g' c',
    assign_position p g c w = (w', Ok (g', c')) /\ counters_total c'.
Proof.
  intros Hcat Hc. unfold assign_position.
  destruct (Hc _ Hcat) as [ck ->].
  eexists _, _, _. split; [ reflexivity | ].
  intros k Hk. rewrite lookup_insert. case_decide; [ eauto | apply Hc, Hk ].
Qed.

Lemma renumber_completes (marked : list (Patient * bool)) (g : Z) (c : gmap Z Z)
    (w : World) :
  Forall well_formed (fst <$> marked) -> counters_total c ->
  exists w' g' c',
    renumber marked g c w = (w', Ok (g', c')) /\ counters_total c'.
Proof.
  revert g c w. induction marked as [|[p b] marked IH]; intros g c w Hm Hc; simpl.
  - eexists _, _, _. split; [ reflexivity | exact Hc ].
  - rewrite fmap_cons in Hm. apply Forall_cons in Hm as [[Hcat _] Hm].
    destruct b; [ apply IH; assumption | ].
    unfold bind.
    destruct (assign_position_completes p g c w Hcat Hc) as (w1 & g1 & c1 & -> & Hc1).
    apply IH; assumption.
Qed.

Lemma replace_removed_completes (o : Oracle) (n : nat) (g : Z) (c : gmap Z Z)
    (w : World) :
  (forall i, well_formed (mock_patient o i)) -> counters_total c ->
  exists w' g' c',
    replace_removed o n g c w = (w', Ok (g', c')) /\ counters_total c'.
Proof.
  intros Hmock. revert g c w. induction n as [|n IH]; intros g c w Hc; simpl.
  - eexists _, _, _. split; [ reflexivity | exact Hc ].
  - unfold bind at 1. unfold generate_mock_patient at 1. unfold bind at 1.
    match goal with |- context [assign_position ?p g c ?w1] =>
      destruct (assign_position_completes p g c w1 (proj1 (Hmock _)) Hc)
        as (w2 & g1 & c1 & -> & Hc1) end.
    apply IH. exact Hc1.
Qed.

(** X17: a pass over well-formed patients (triage categories in 1..5,
    investigation mappings with both test kinds) that removes somebody
    runs to its end without an error; so does one that removes nobody,
    unless the growth patient is due. *)
Lemma update_patients_completes (o : Oracle) (w : World) :
  scan_ok o ->
  (forall k p, patients w !! k = Some p -> well_formed p) ->
  (forall i, well_formed (mock_patient o i)) ->
  dead (patient_list o w) <> [] \/ growth_due o w = false ->
  snd (update_patients o w) = Ok tt.
Proof.
  intros Hscan Hstore Hmock Hcase.
  assert (Forall well_formed (patient_list o w)) as Hl.
  { apply Forall_forall. intros p Hp.
    apply (patient_list_stored o w p Hscan) in Hp as [k Hk]. eauto. }
  unfold update_patients.
  unfold bind at 1. rewrite get_patients_eq.
  unfold bind at 1. unfold set_last_update at 1, modify at 1.
  unfold bind at 1. fold (patient_list o w). fold (growth_due o w).
  match goal with |- context [first_pass o _ ?w0] =>
    destruct (first_pass_completes o _ w0 Hl) as (w1 & marked & E1 & Hm) end.
  rewrite E1. apply first_pass_ok in E1 as [HF _].
  rewrite (marks_removed _ _ HF).
  destruct (dead (patient_list o w)) as [|d ds] eqn:Hdead.
  - destruct Hcase as [Hcase| ->]; [ contradiction | ].
    reflexivity.
  - unfold bind at 1. unfold bind at 1.
    destruct (renumber_completes marked 1 initial_category_positions w1 Hm
                counters_total_initial) as (w2 & g & c & -> & Hc).
    unfold bind at 1.
    destruct (replace_removed_completes o (length (d :: ds)) g c w2 Hmock Hc)
      as (w3 & g' & c' & -> & Hc').
    unfold ret at 1.
    destruct (growth_due o w); [ | reflexivity ].
    unfold bind, generate_mock_patient.
    destruct (Hc' _ (proj1 (Hmock (mocks w3)))) as [ck ->]. reflexivity.
Qed.

Lemma world_of_keyed (l : list Patient) (t : option Z) :
  keyed_by_id (patients (world_of l t)).
Proof.
  intros k p H. apply elem_of_list_to_map_2 in H.
  apply list_elem_of_fmap in H as (q & [= -> ->] & _). reflexivity.
Qed.

Lemma sample_oracle_scan_ok (t_request t_pass : Z) (r : Q) :
  scan_ok (sample_oracle t_request t_pass r).
Proof. intros m. reflexivity. Qed.

(** A pass over a store without terminal patients, however it ends. *)
Lemma update_patients_no_removal (o : Oracle) (w : World) :
  scan_ok o ->
  (forall k p, patients w !! k = Some p -> ~ terminal p) ->
  patients (fst (update_patients o w)) = patients w
  /\ added (fst (update_patients o w)) = added w
  /\ (growth_due o w = true -> exists e, snd (update_patients o w) = Raise e).
Proof.
  intros Hscan Hlive.
  assert (dead (patient_list o w) = []) as Hdead.
  { destruct (dead (patient_list o w)) as [|d ds] eqn:E; [ reflexivity | ].
    assert (d ∈ dead (patient_list o w)) as Hd by (rewrite E; left).
    apply dead_elem in Hd as [Ht Hd].
    apply (patient_list_stored o w d Hscan) in Hd as [k Hk].
    exfalso. exact (Hlive k d Hk Ht). }
  destruct (update_patients o w) as [w' r] eqn:Hrun. simpl.
  revert Hrun. unfold update_patients.
  unfold bind at 1. rewrite get_patients_eq.
  unfold bind at 1. unfold set_last_update at 1, modify at 1.
  unfold bind at 1. fold (patient_list o w). fold (growth_due o w).
  match goal with |- context [first_pass o (patient_list o w) ?w0] =>
    pose proof (first_pass_no_terminal o _ w0 Hdead) as [Hp Hrm];
    pose proof (first_pass_stable (same added) o
                  (fun k w => eq_refl) (fun w => eq_refl) (patient_list o w) w0) as Ha;
    unfold same in Ha;
    destruct (first_pass o (patient_list o w) w0) as [w1 [marked|e]]
  end; simpl in Hp, Ha.
  - rewrite (Hrm marked eq_refl). unfold bind at 1. unfold ret at 1.
    destruct (growth_due o w).
    + unfold bind, generate_mock_patient, raise. intros [= <- <-]. simpl.
      split_and!; [ exact Hp | exact Ha | eauto ].
    + unfold ret. intros [= <- <-].
      split_and!; [ exact Hp | exact Ha | discriminate ].
  - intros [= <- <-]. split_and!; [ exact Hp | exact Ha | eauto ].
Qed.

(** Where a stored patient is after a completed pass. *)
Lemma pass_lookup (o : Oracle) (w w' : World) (p : Patient) :
  scan_ok o -> keyed_by_id (patients w) ->
  update_patients o w = (w', Ok tt) ->
  patients w !! id p = Some p ->
  (forall n, id (mock_patient o n) <> id p) ->
  (terminal p -> patients w' !! id p = None)
  /\ (~ terminal p -> dead (patient_list o w) = [] -> patients w' !! id p = Some p)
  /\ (~ terminal p -> dead (patient_list o w) <> [] ->
      exists a, patients w' !! id p = Some a /\ advanced p a).
Proof.
  intros Hscan Hkey Hrun Hp Hmock.
  destruct (patient_list_keyed o w Hscan Hkey) as (Hperm & Hnd & Hin).
  apply update_patients_ok in Hrun
    as [_ [(Hdead & _ & Hpat & _)
          | (Hdead & marked & sv & rp & ex & HM & Hsv & HR & HE & _ & _ & Hpat & _)]].
  - split_and!.
    + intros Ht. exfalso.
      assert (p ∈ dead (patient_list o w)) as Hd
        by (apply dead_elem; split; [ exact Ht | apply Hin, Hp ]).
      rewrite Hdead in Hd. apply not_elem_of_nil in Hd. exact Hd.
    + intros _ _. rewrite Hpat. exact Hp.
    + intros _ Hne. contradiction.
  - pose proof (survivors_advanced _ _ _ HM Hsv) as HA.
    assert (id p ∉ id <$> rp) as HidR by (eapply mock_ids_fresh; eauto).
    assert (id p ∉ id <$> ex) as HidE.
    { destruct (growth_due o w).
      - apply (mock_ids_fresh o _ [(mocks w + length (dead (patient_list o w)))%nat]);
          [ exact Hmock | exact HE ].
      - apply (mock_ids_fresh o _ []); [ exact Hmock | exact HE ]. }
    split_and!.
    + intros Ht. rewrite Hpat, store_all_lookup_fresh.
      * rewrite purge_lookup, decide_True; [ reflexivity | ].
        apply list_elem_of_fmap. exists p. split; [ reflexivity | ].
        apply dead_elem. split; [ exact Ht | apply Hin, Hp ].
      * rewrite !fmap_app, !elem_of_app. intros [H|[H|H]]; [ | auto | auto ].
        rewrite (advanced_ids _ _ HA) in H.
        apply list_elem_of_fmap in H as (q & Hq & Hql).
        apply live_elem in Hql as [Hnt HqL]. apply Hin in HqL.
        rewrite <- Hq, Hp in HqL. injection HqL as <-. contradiction.
    + intros _ Hd. contradiction.
    + intros Hnt _.
      assert (p ∈ live (patient_list o w)) as Hlive
        by (apply live_elem; split; [ exact Hnt | apply Hin, Hp ]).
      assert (NoDup (id <$> live (patient_list o w))) as Hndl
        by (apply NoDup_fmap_filter, Hnd).
      apply list_elem_of_split in Hlive as (l1 & l2 & Hl).
      rewrite Hl in HA, Hndl.
      apply Forall2_app_inv_l in HA as (s1 & s2' & H1 & H2 & ->).
      apply Forall2_cons_inv_l in H2 as (a & s2 & Hpa & H2 & ->).
      exists a. split; [ | exact Hpa ].
      assert (id a = id p) as Hid by (apply advanced_fields in Hpa; tauto).
      rewrite Hpat, <- Hid, <- app_assoc.
      change ((a :: s2) ++ rp ++ ex) with (a :: (s2 ++ rp ++ ex)).
      apply store_all_lookup_last.
      rewrite Hid, !fmap_app, !elem_of_app. intros [H|[H|H]]; [ | auto | auto ].
      rewrite (advanced_ids _ _ H2) in H.
      rewrite fmap_app, fmap_cons in Hndl.
      apply NoDup_app in Hndl as (_ & _ & Hndl).
      apply NoDup_cons in Hndl as [Hndl _]. contradiction.
Qed.

(** A survivor is stored with the status the state machine gave it. *)
Lemma advanced_status (p a : Patient) :
  advanced p a -> exists u, status a = status (progressed u p).
Proof.
  intros (u & p' & Hp & Ha). exists u.
  apply positioned_fields in Ha as (_ & _ & _ & ->).
  unfold progressed. rewrite Hp. reflexivity.
Qed.

(** One call takes a patient into admitted or discharged exactly when it
    finds the patient in treatment. *)
Lemma progressed_terminal (u : bool) (p : Patient) :
  ~ terminal p ->
  (terminal (progressed u p) <-> current_phase (status p) = "treatment").
Proof.
  unfold terminal, progressed. intros Hnt.
  rewrite progress_patient_phase_unfold.
  destruct (decide (current_phase (status p) = "registered")) as [H|_];
    [ rewrite H; simpl; split; discriminate | ].
  destruct (decide (current_phase (status p) = "triaged")) as [H|_];
    [ rewrite H; simpl; split; discriminate | ].
  destruct (decide (current_phase (status p) = "investigations_pending")) as [H|_].
  { rewrite H. destruct (investigations (status p)) as [inv|].
    - pose proof (progress_tests_status
                    (with_status (mkStatus "treatment" (Some inv)) p)) as (Hph & _).
      rewrite Hph. simpl. split; discriminate.
    - simpl. split; discriminate. }
  destruct (decide (current_phase (status p) = "treatment")) as [H|H].
  - simpl. split; [ auto | intros _; destruct u; reflexivity ].
  - simpl. split; [ intros Ht; contradiction | intros Hc; contradiction ].
Qed.

(** The two calls that follow investigations_pending with both tests
    ordered: the first advances both tests and the phase, the second only
    the phase. *)
Lemma progressed_tests_ordered (u : bool) (p : Patient) :
  status p = mkStatus "investigations_pending" (Some (tests "ordered" "ordered")) ->
  status (progressed u p) = mkStatus "treatment" (Some (tests "pending" "pending")).
Proof. destruct p as [i c a st q]; simpl; intros ->. reflexivity. Qed.

Lemma progressed_tests_pending (u : bool) (p : Patient) :
  status p = mkStatus "treatment" (Some (tests "pending" "pending")) ->
  status (progressed u p) = mkStatus (random_choices u) (Some (tests "pending" "pending")).
Proof. destruct p as [i c a st q]; simpl; intros ->. destruct u; reflexivity. Qed.

(** C1 (as stated, refuted): patient ["b"] enters the pass in treatment,
    becomes discharged in it, and is in the store, discharged, when the
    pass has completed. *)
Lemma pass_persists_new_terminal :
  let o := sample_oracle 0 1 (1 # 2) in
  let w' := fst (update_patients o world_two) in
  snd (update_patients o world_two) = Ok tt
  /\ (fun p => current_phase (status p)) <$> patients world_two !! "b" = Some "treatment"
  /\ (fun p => current_phase (status p)) <$> patients w' !! "b" = Some "discharged".
Proof. vm_compute. auto. Qed.

(** C1 (amended): when a pass completes, every stored patient that was
    already admitted or discharged when the pass started is absent from
    the store (generated patients are taken not to reuse its id).  A
    patient that was not is still in the store: as it was, if the pass
    removed nobody; otherwise written back after one call of the state
    machine, with a terminal phase exactly when it entered the pass in
    treatment.  Such a patient, stored with a terminal phase, is absent
    from the store once the next pass has completed. *)
Theorem update_patients_purges_entry_terminal (o : Oracle) (w w' : World) (p : Patient) :
  scan_ok o -> keyed_by_id (patients w) ->
  update_patients o w = (w', Ok tt) ->
  patients w !! id p = Some p ->
  (forall n, id (mock_patient o n) <> id p) ->
  (terminal p -> patients w' !! id p = None)
  /\ (~ terminal p -> dead (patient_list o w) = [] -> patients w' !! id p = Some p)
  /\ (~ terminal p -> dead (patient_list o w) <> [] ->
      exists a, patients w' !! id p = Some a
        /\ advanced p a
        /\ (terminal a <-> current_phase (status p) = "treatment")
        /\ forall o2 w2,
             scan_ok o2 -> (forall n, id (mock_patient o2 n) <> id p) ->
             update_patients o2 w' = (w2, Ok tt) ->
             terminal a -> patients w2 !! id p = None).
Proof.
  intros Hscan Hkey Hrun Hp Hmock.
  destruct (pass_lookup o w w' p Hscan Hkey Hrun Hp Hmock) as (HT & HN & HR).
  split_and!; [ exact HT | exact HN | ].
  intros Hnt Hdead. destruct (HR Hnt Hdead) as (a & Ha & Hadv).
  exists a. split_and!; [ exact Ha | exact Hadv | | ].
  - destruct (advanced_status _ _ Hadv) as (u & Hst).
    rewrite <- (progressed_terminal u p Hnt). unfold terminal. rewrite Hst. tauto.
  - intros o2 w2 Hscan2 Hmock2 Hrun2 Hta.
    assert (id a = id p) as Hid by (apply advanced_fields in Hadv; tauto).
    assert (keyed_by_id (patients w')) as Hkey'.
    { pose proof (update_patients_keyed o w Hkey) as H. rewrite Hrun in H. exact H. }
    rewrite <- Hid in Ha, Hmock2 |- *.
    destruct (pass_lookup o2 w' w2 a Hscan2 Hkey' Hrun2 Ha Hmock2) as (H2 & _).
    apply H2, Hta.
Qed.

(** The pass over the sample store of two, at patient ["b"], which
    enters the pass in treatment while ["a"] is removed. *)
Lemma update_patients_purges_entry_terminal_witness :
  let o := sample_oracle 0 1 (1 # 2) in
  let w' := fst (update_patients o world_two) in
  let b := plain_patient "b" 1 7 "treatment" in
  (terminal b -> patients w' !! id b = None)
  /\ (~ terminal b -> dead (patient_list o world_two) = [] -> patients w' !! id b = Some b)
  /\ (~ terminal b -> dead (patient_list o world_two) <> [] ->
      exists a, patients w' !! id b = Some a
        /\ advanced b a
        /\ (terminal a <-> current_phase (status b) = "treatment")
        /\ forall o2 w2,
             scan_ok o2 -> (forall n, id (mock_patient o2 n) <> id b) ->
             update_patients o2 w' = (w2, Ok tt) ->
             terminal a -> patients w2 !! id b = None).
Proof.
  apply (update_patients_purges_entry_terminal (sample_oracle 0 1 (1 # 2)) world_two).
  - apply sample_oracle_scan_ok.
  - apply world_of_keyed.
  - vm_compute. reflexivity.
  - vm_compute. reflexivity.
  - intros n. simpl. discriminate.
Defined.

(** C3 (as stated, refuted): starting from investigations_pending with
    both tests ordered, the second call leaves both tests at 'pending';
    they are not 'reported'.  So it is in the store: after two passes
    over the sample store of three, each of which removes somebody and
    writes the patient back, the stored tests are both 'pending'. *)
Lemma second_pass_leaves_tests_pending :
  let p2 := progressed false (progressed false sample_patient) in
  let w1 := fst (update_patients (sample_oracle 0 1 (1 # 2)) world_three) in
  let w2 := fst (update_patients (sample_oracle 0 2 (1 # 2)) w1) in
  current_phase (status sample_patient) = "investigations_pending"
  /\ investigations (status sample_patient) = Some (tests "ordered" "ordered")
  /\ investigations (status p2) = Some (tests "pending" "pending")
  /\ investigations (status p2) <> Some (tests "reported" "reported")
  /\ patients world_three !! "p-1" = Some sample_patient
  /\ snd (update_patients (sample_oracle 0 1 (1 # 2)) world_three) = Ok tt
  /\ snd (update_patients (sample_oracle 0 2 (1 # 2)) w1) = Ok tt
  /\ (fun q => investigations (status q)) <$> patients w2 !! "p-1"
     = Some (Some (tests "pending" "pending")).
Proof.
  split_and!; try (vm_compute; reflexivity).
  intros H. apply (f_equal (fun o => o ≫= lookup "labs")) in H.
  vm_compute in H. discriminate H.
Qed.

(** C3 (amended): a patient stored at investigations_pending with both
    tests ordered, over three completed passes (generated patients are
    taken not to reuse its id).  A first pass that removes nobody leaves
    the stored patient as it was; one that removes somebody stores it in
    treatment with both tests 'pending'.  A second pass that removes
    nobody leaves it so; one that removes somebody stores it admitted or
    discharged, both tests still 'pending', and the third pass deletes
    it.  The tests are never 'reported'. *)
Theorem investigations_over_three_passes (o1 o2 o3 : Oracle) (w w1 w2 w3 : World)
    (p : Patient) :
  scan_ok o1 -> scan_ok o2 -> scan_ok o3 -> keyed_by_id (patients w) ->
  update_patients o1 w = (w1, Ok tt) ->
  update_patients o2 w1 = (w2, Ok tt) ->
  update_patients o3 w2 = (w3, Ok tt) ->
  patients w !! id p = Some p ->
  status p = mkStatus "investigations_pending" (Some (tests "ordered" "ordered")) ->
  (forall n, id (mock_patient o1 n) <> id p) ->
  (forall n, id (mock_patient o2 n) <> id p) ->
  (forall n, id (mock_patient o3 n) <> id p) ->
  (dead (patient_list o1 w) = [] -> patients w1 !! id p = Some p)
  /\ (dead (patient_list o1 w) <> [] ->
      exists a1, patients w1 !! id p = Some a1
        /\ status a1 = mkStatus "treatment" (Some (tests "pending" "pending"))
        /\ (dead (patient_list o2 w1) = [] -> patients w2 !! id p = Some a1)
        /\ (dead (patient_list o2 w1) <> [] ->
            exists a2, patients w2 !! id p = Some a2
              /\ (current_phase (status a2) = "admitted"
                  \/ current_phase (status a2) = "discharged")
              /\ investigations (status a2) = Some (tests "pending" "pending")
              /\ patients w3 !! id p = None)).
Proof.
  intros Hs1 Hs2 Hs3 Hkey Hr1 Hr2 Hr3 Hp Hst Hm1 Hm2 Hm3.
  assert (~ terminal p) as Hnt
    by (unfold terminal; rewrite Hst; vm_compute; discriminate).
  destruct (pass_lookup o1 w w1 p Hs1 Hkey Hr1 Hp Hm1) as (_ & HN1 & HR1).
  split; [ exact (HN1 Hnt) | ].
  intros Hd1. destruct (HR1 Hnt Hd1) as (a1 & Ha1 & Hadv1).
  assert (id a1 = id p) as Hid1 by (apply advanced_fields in Hadv1; tauto).
  assert (status a1 = mkStatus "treatment" (Some (tests "pending" "pending"))) as Hst1.
  { destruct (advanced_status _ _ Hadv1) as (u & ->).
    apply progressed_tests_ordered, Hst. }
  exists a1. split; [ exact Ha1 | ]. split; [ exact Hst1 | ].
  assert (keyed_by_id (patients w1)) as Hkey1.
  { pose proof (update_patients_keyed o1 w Hkey) as H. rewrite Hr1 in H. exact H. }
  assert (~ terminal a1) as Hnt1
    by (unfold terminal; rewrite Hst1; vm_compute; discriminate).
  rewrite <- Hid1 in Ha1, Hm2, Hm3 |- *.
  destruct (pass_lookup o2 w1 w2 a1 Hs2 Hkey1 Hr2 Ha1 Hm2) as (_ & HN2 & HR2).
  split; [ exact (HN2 Hnt1) | ].
  intros Hd2. destruct (HR2 Hnt1 Hd2) as (a2 & Ha2 & Hadv2).
  assert (id a2 = id a1) as Hid2 by (apply advanced_fields in Hadv2; tauto).
  destruct (advanced_status _ _ Hadv2) as (u & Hst2).
  rewrite (progressed_tests_pending u a1 Hst1) in Hst2.
  exists a2. rewrite Hst2. simpl.
  split_and!; [ exact Ha2 | destruct u; auto | reflexivity | ].
  assert (keyed_by_id (patients w2)) as Hkey2.
  { pose proof (update_patients_keyed o2 w1 Hkey1) as H. rewrite Hr2 in H. exact H. }
  rewrite <- Hid2 in Ha2, Hm3 |- *.
  destruct (pass_lookup o3 w2 w3 a2 Hs3 Hkey2 Hr3 Ha2 Hm3) as (HT3 & _).
  apply HT3. unfold terminal. rewrite Hst2. destruct u; reflexivity.
Qed.

(** Three passes over the sample store of three: the first removes
    ["a"], the second ["b"], the third the sample patient. *)
Lemma investigations_over_three_passes_witness :
  let o1 := sample_oracle 0 1 (1 # 2) in
  let o2 := sample_oracle 0 2 (1 # 2) in
  let o3 := sample_oracle 0 3 (1 # 2) in
  let w1 := fst (update_patients o1 world_three) in
  let w2 := fst (update_patients o2 w1) in
  let w3 := fst (update_patients o3 w2) in
  let p := sample_patient in
  (dead (patient_list o1 world_three) = [] -> patients w1 !! id p = Some p)
  /\ (dead (patient_list o1 world_three) <> [] ->
      exists a1, patients w1 !! id p = Some a1
        /\ status a1 = mkStatus "treatment" (Some (tests "pending" "pending"))
        /\ (dead (patient_list o2 w1) = [] -> patients w2 !! id p = Some a1)
        /\ (dead (patient_list o2 w1) <> [] ->
            exists a2, patients w2 !! id p = Some a2
              /\ (current_phase (status a2) = "admitted"
                  \/ current_phase (status a2) = "discharged")
              /\ investigations (status a2) = Some (tests "pending" "pending")
              /\ patients w3 !! id p = None)).
Proof.
  apply (investigations_over_three_passes
           (sample_oracle 0 1 (1 # 2)) (sample_oracle 0 2 (1 # 2))
           (sample_oracle 0 3 (1 # 2)) world_three _ _ _ sample_patient).
  - apply sample_oracle_scan_ok.
  - apply sample_oracle_scan_ok.
  - apply sample_oracle_scan_ok.
  - apply world_of_keyed.
  - vm_compute. reflexivity.
  - vm_compute. reflexivity.
  - vm_compute. reflexivity.
  - vm_compute. reflexivity.
  - reflexivity.
  - intros n. simpl. discriminate.
  - intros n. simpl. discriminate.
  - intros n. simpl. discriminate.
Defined.

(** C4 (code evaluated at the failing input): one registered patient in
    the store, so the pass removes nobody; the population is below 30 and
    the growth draw fires.  [update_patients] raises [UnboundLocalError]
    and stores no new patient. *)
Theorem growth_without_removal_raises :
  let o := sample_oracle 0 1 (1 # 10) in
  dead (patient_list o world_one) = []
  /\ growth_due o world_one = true
  /\ snd (update_patients o world_one) = Raise UnboundLocalError
  /\ patients (fst (update_patients o world_one)) = patients world_one
  /\ added (fst (update_patients o world_one)) = [].
Proof. vm_compute. auto. Qed.

(** C5: if no stored patient is terminal when the pass starts, the pass
    removes nobody, and then it writes no patient back: the keyspace of
    patients and the history of [add_patient] calls are what they were
    (so no phase or investigation advance is persisted, and not even the
    opportunistic patient is added); only ['last_update'] is set.  This
    holds whether the pass completes or raises. *)
Theorem update_patients_no_removal_frame (o : Oracle) (w : World) :
  scan_ok o ->
  (forall k p, patients w !! k = Some p -> ~ terminal p) ->
  let w' := fst (update_patients o w) in
  patients w' = patients w
  /\ added w' = added w
  /\ last_update w' = Some (now_pass o).
Proof.
  intros Hscan Hlive w'.
  destruct (update_patients_no_removal o w Hscan Hlive) as (Hp & Ha & _).
  split_and!; [ exact Hp | exact Ha | apply update_patients_last_update ].
Qed.

(** The pass over the sample store of one writes nothing back. *)
Lemma update_patients_no_removal_frame_witness :
  let o := sample_oracle 0 1 (1 # 2) in
  let w' := fst (update_patients o world_one) in
  patients w' = patients world_one
  /\ added w' = added world_one
  /\ last_update w' = Some (now_pass o).
Proof.
  apply (update_patients_no_removal_frame (sample_oracle 0 1 (1 # 2)) world_one).
  - apply sample_oracle_scan_ok.
  - intros k p H. apply elem_of_list_to_map_2 in H.
    apply list_elem_of_singleton in H. injection H as -> ->.
    vm_compute. discriminate.
Defined.

(** C6: after a completed pass that removed at least one patient, the
    patients stored by the pass are the survivors, then the replacements
    (then the growth patient, if one is due); survivors and replacements
    together carry the global positions 1..N in that order and, in each
    triage category k, the category positions 1..M_k; the survivors are
    the stored non-terminal patients in (triage category, arrival time)
    ascending order, and there are as many replacements as removed
    patients. *)
Theorem update_patients_positions_dense (o : Oracle) (w w' : World) (p : Patient) :
  scan_ok o -> keyed_by_id (patients w) ->
  update_patients o w = (w', Ok tt) ->
  patients w !! id p = Some p -> terminal p ->
  let stored := snd <$> map_to_list (patients w) in
  exists survivors replacements extra,
    added w' = added w ++ survivors ++ replacements ++ extra
    /\ id <$> survivors ≡ₚ id <$> filter (fun q => ~ terminal q) stored
    /\ StronglySorted key_le (triage_key <$> survivors)
    /\ length replacements = length (filter terminal stored)
    /\ Forall2 positioned (mock_patient o <$> seq (mocks w) (length replacements))
         replacements
    /\ (length extra <= 1)%nat
    /\ positions_dense (survivors ++ replacements).
Proof.
  intros Hscan Hkey Hrun Hp Ht stored.
  destruct (patient_list_keyed o w Hscan Hkey) as (Hperm & Hnd & Hin).
  apply update_patients_ok in Hrun
    as [_ [(Hdead & _) | (_ & marked & sv & rp & ex & HM & Hsv & HR & HE & Hd & _ & _ & Ha)]].
  { exfalso.
    assert (p ∈ dead (patient_list o w)) as Hpd
      by (apply dead_elem; split; [ exact Ht | apply Hin, Hp ]).
    rewrite Hdead in Hpd. apply not_elem_of_nil in Hpd. exact Hpd. }
  pose proof (survivors_advanced _ _ _ HM Hsv) as HA.
  assert (length rp = length (dead (patient_list o w))) as HlenR.
  { apply Forall2_length in HR. rewrite length_fmap, length_seq in HR. auto. }
  exists sv, rp, ex. split_and!.
  - exact Ha.
  - rewrite (advanced_ids _ _ HA). unfold live, stored. rewrite Hperm. reflexivity.
  - rewrite (advanced_keys _ _ HA). unfold live, patient_list.
    apply StronglySorted_fmap_filter, list_sort_triage_sorted.
  - rewrite HlenR. unfold dead, stored. rewrite Hperm. reflexivity.
  - rewrite HlenR. exact HR.
  - apply Forall2_length in HE. rewrite <- HE.
    destruct (growth_due o w); simpl; lia.
  - exact Hd.
Qed.

(** The pass over the sample store of two numbers ["b"] and the
    replacement of ["a"]. *)
Lemma update_patients_positions_dense_witness :
  let o := sample_oracle 0 1 (1 # 2) in
  let w' := fst (update_patients o world_two) in
  let stored := snd <$> map_to_list (patients world_two) in
  exists survivors replacements extra,
    added w' = added world_two ++ survivors ++ replacements ++ extra
    /\ id <$> survivors ≡ₚ id <$> filter (fun q => ~ terminal q) stored
    /\ StronglySorted key_le (triage_key <$> survivors)
    /\ length replacements = length (filter terminal stored)
    /\ Forall2 positioned (mock_patient o <$> seq (mocks world_two) (length replacements))
         replacements
    /\ (length extra <= 1)%nat
    /\ positions_dense (survivors ++ replacements).
Proof.
  apply (update_patients_positions_dense (sample_oracle 0 1 (1 # 2)) world_two _
           (plain_patient "a" 2 5 "discharged")).
  - apply sample_oracle_scan_ok.
  - apply world_of_keyed.
  - vm_compute. reflexivity.
  - vm_compute. reflexivity.
  - vm_compute. reflexivity.
Defined.

(** ** The scheduler *)

Lemma schedule_first_request (o : Oracle) (w : World) :
  last_update w = None ->
  schedule o w
  = (mkWorld (patients w) (Some (now_request o)) (added w) (draws w) (mocks w), Ok tt).
Proof. intros H. unfold schedule, bind, get. rewrite H. reflexivity. Qed.

Lemma schedule_later_request (o : Oracle) (w : World) (t : Z) :
  last_update w = Some t ->
  schedule o w
  = match update_patients o w with
    | (w1, Ok _) =>
        if 0 <? minutes_between t (now_request o) / 15
        then set_last_update (now_request o) w1
        else (w1, Ok tt)
    | (w1, Raise e) => (w1, Raise e)
    end.
Proof.
  intros H. unfold schedule. unfold bind at 1. unfold get at 1. rewrite H.
  simpl. unfold bind, ret.
  destruct (update_patients o w) as [w1 [[]|e]]; [ | reflexivity ].
  destruct (0 <? _); reflexivity.
Qed.

Lemma scanned_nonempty (o : Oracle) (w : World) :
  scan_ok o -> patients w <> ∅ -> scanned o w <> [].
Proof.
  intros Hscan Hne.
  assert (forall l d, d <> [] -> foldl dict_add d l <> []) as Hfold.
  { induction l as [|kp l IH]; intros d Hd; simpl; [ exact Hd | ].
    apply IH. unfold dict_add. destruct d as [|[k v] d]; [ contradiction | ].
    simpl. case_decide; discriminate. }
  unfold scanned. change (foldl _ [] ?l) with (foldl dict_add [] l).
  destruct (scan_iter o (patients w)) as [|kp l] eqn:E.
  - exfalso. apply Hne. apply map_to_list_empty_iff.
    apply Permutation_nil_r. rewrite <- (Hscan (patients w)), E. reflexivity.
  - simpl. apply Hfold. discriminate.
Qed.

(** C2 (as stated, refuted): five minutes after the stored timestamp a
    request runs a pass and answers, and the stored timestamp is no
    longer the previous one: it is the clock reading of the pass. *)
Lemma timestamp_overwritten_within_interval :
  let o := sample_oracle five_minutes (five_minutes + 1) (1 # 2) in
  let w' := fst (get_queue o None world_one) in
  last_update world_one = Some 0
  /\ minutes_between 0 (now_request o) = 5
  /\ (exists r, snd (get_queue o None world_one) = Ok r)
  /\ last_update w' = Some (five_minutes + 1)
  /\ last_update w' <> last_update world_one.
Proof.
  vm_compute. split_and!; try reflexivity; [ eexists; reflexivity | discriminate ].
Qed.

(** C2 (amended): on every request that finds a stored timestamp, the
    pass itself first stores its own clock reading as ['last_update'];
    after a completed pass the scheduler stores the request's clock
    reading over it if and only if at least one full 15-minute interval
    has elapsed since the previous timestamp.  So with fewer than 15
    minutes elapsed, or when the pass raises, the stored timestamp is the
    clock reading of the pass, and otherwise that of the request; it is
    never left as it was. *)
Theorem get_queue_last_update (o : Oracle) (sort_arg : option string) (w : World) (t : Z) :
  last_update w = Some t ->
  let w' := fst (get_queue o sort_arg w) in
  (minutes_between t (now_request o) < 15 -> last_update w' = Some (now_pass o))
  /\ (15 <= minutes_between t (now_request o) ->
      snd (update_patients o w) = Ok tt -> last_update w' = Some (now_request o))
  /\ (forall e, snd (update_patients o w) = Raise e -> last_update w' = Some (now_pass o)).
Proof.
  intros Hlu w'. unfold w'.
  rewrite (get_queue_after_schedule (same last_update) o
             ltac:(intros; intros ?; reflexivity) ltac:(intros ?; reflexivity)).
  rewrite (schedule_later_request o w t Hlu).
  pose proof (update_patients_last_update o w) as Hpass.
  generalize (minutes_between t (now_request o)). intros m.
  destruct (update_patients o w) as [w1 [[]|e]]; simpl in *.
  - destruct (Z.ltb_spec 0 (m / 15)) as [Hdiv|Hdiv]; split_and!.
    + intros Hm. exfalso. revert Hdiv. Z.div_mod_to_equations. lia.
    + reflexivity.
    + discriminate.
    + intros _. exact Hpass.
    + intros Hm. exfalso. revert Hdiv. Z.div_mod_to_equations. lia.
    + discriminate.
  - split_and!; [ auto | discriminate | auto ].
Qed.

(** A request five minutes after the stored timestamp. *)
Lemma get_queue_last_update_witness :
  let o := sample_oracle five_minutes (five_minutes + 1) (1 # 2) in
  let w' := fst (get_queue o None world_one) in
  (minutes_between 0 (now_request o) < 15 -> last_update w' = Some (now_pass o))
  /\ (15 <= minutes_between 0 (now_request o) ->
      snd (update_patients o world_one) = Ok tt -> last_update w' = Some (now_request o))
  /\ (forall e, snd (update_patients o world_one) = Raise e ->
      last_update w' = Some (now_pass o)).
Proof.
  apply (get_queue_last_update
           (sample_oracle five_minutes (five_minutes + 1) (1 # 2)) None world_one 0).
  reflexivity.
Defined.

(** C8: on a request that finds no ['last_update'] in the store, the
    scheduler stores the request's clock reading and does nothing else:
    no pass runs, so no [random.choices] draw is taken, and the stored
    patients of a non-empty store are exactly what they were, with
    nothing written. *)
Theorem get_queue_first_request (o : Oracle) (sort_arg : option string) (w : World) :
  last_update w = None ->
  let w' := fst (get_queue o sort_arg w) in
  schedule o w
  = (mkWorld (patients w) (Some (now_request o)) (added w) (draws w) (mocks w), Ok tt)
  /\ last_update w' = Some (now_request o)
  /\ draws w' = draws w
  /\ (scan_ok o -> patients w <> ∅ -> patients w' = patients w /\ added w' = added w).
Proof.
  intros Hlu w'. pose proof (schedule_first_request o w Hlu) as Hs.
  split_and!.
  - exact Hs.
  - unfold w'.
    rewrite (get_queue_after_schedule (same last_update) o
               ltac:(intros; intros ?; reflexivity) ltac:(intros ?; reflexivity)).
    rewrite Hs. reflexivity.
  - unfold w'.
    rewrite (get_queue_after_schedule (same draws) o
               ltac:(intros; intros ?; reflexivity) ltac:(intros ?; reflexivity)).
    rewrite Hs. reflexivity.
  - intros Hscan Hne.
    assert (w' = fst (schedule o w)) as Hw.
    { unfold w', get_queue. unfold bind at 1. rewrite Hs.
      unfold bind at 1. rewrite get_patients_eq.
      match goal with |- context [scanned o ?w1] =>
        pose proof (scanned_nonempty o w1 Hscan Hne) as Hd;
        change (scanned o w1) with (scanned o w) in *
      end.
      destruct (scanned o w) as [|[k p] d]; [ contradiction | ].
      rewrite fmap_cons. unfold bind, ret. cbv beta iota.
      destruct (respond o _ _); reflexivity. }
    rewrite Hw, Hs. split; reflexivity.
Qed.

(** The first request on a store that holds two patients. *)
Lemma get_queue_first_request_witness :
  let o := sample_oracle five_minutes (five_minutes + 1) (1 # 2) in
  let w' := fst (get_queue o None world_fresh) in
  schedule o world_fresh
  = (mkWorld (patients world_fresh) (Some (now_request o)) (added world_fresh)
             (draws world_fresh) (mocks world_fresh), Ok tt)
  /\ last_update w' = Some (now_request o)
  /\ draws w' = draws world_fresh
  /\ (scan_ok o -> patients world_fresh <> ∅ ->
      patients w' = patients world_fresh /\ added w' = added world_fresh).
Proof.
  apply (get_queue_first_request
           (sample_oracle five_minutes (five_minutes + 1) (1 # 2)) None world_fresh).
  reflexivity.
Defined.

(** ** Sorting by the request parameter *)

Lemma py_lt_total_asym (a b : pyval) :
  py_lt_total a b = true -> py_lt_total b a = false.
Proof.
  destruct a as [x|s| |], b as [y|t| |]; simpl; try discriminate.
  - lia.
  - unfold String.ltb. rewrite (String.compare_antisym s t).
    destruct (String.compare t s); simpl; congruence.
Qed.

Lemma py_lt_raises (a b : pyval) (e : exn) : py_lt a b = Raise e -> e = TypeError.
Proof. destruct a, b; simpl; congruence. Qed.

Lemma insert_checked_perm {A : Type} (x : pyval * A) (l r : list (pyval * A)) :
  insert_checked x l = Ok r -> r ≡ₚ x :: l.
Proof.
  revert r. induction l as [|y l IH]; simpl; intros r.
  - intros [= <-]. reflexivity.
  - destruct (py_lt (fst y) (fst x)) as [[]|]; [ | | discriminate ].
    + destruct (insert_checked x l) as [r'|]; [ | discriminate ].
      intros [= <-]. rewrite (IH r' eq_refl). apply Permutation_swap.
    + intros [= <-]. reflexivity.
Qed.

Lemma sort_checked_perm {A : Type} (l r : list (pyval * A)) :
  sort_checked l = Ok r -> r ≡ₚ l.
Proof.
  revert r. induction l as [|x l IH]; simpl; intros r.
  - intros [= <-]. reflexivity.
  - destruct (sort_checked l) as [r'|]; [ | discriminate ].
    intros H. apply insert_checked_perm in H. rewrite H, (IH r' eq_refl). reflexivity.
Qed.

Lemma insert_checked_raises {A : Type} (x : pyval * A) (l : list (pyval * A)) (e : exn) :
  insert_checked x l = Raise e -> e = TypeError.
Proof.
  induction l as [|y l IH]; simpl; [ discriminate | ].
  destruct (py_lt (fst y) (fst x)) as [[]|e'] eqn:E.
  - destruct (insert_checked x l); [ discriminate | ].
    intros [= <-]. apply IH. reflexivity.
  - discriminate.
  - intros [= <-]. apply py_lt_raises in E. exact E.
Qed.

Lemma sort_checked_raises {A : Type} (l : list (pyval * A)) (e : exn) :
  sort_checked l = Raise e -> e = TypeError.
Proof.
  induction l as [|x l IH]; simpl; [ discriminate | ].
  destruct (sort_checked l) as [r|e'].
  - apply insert_checked_raises.
  - intros [= <-]. apply IH. reflexivity.
Qed.

(** Where no comparison can raise, the checked sort is the sort. *)
Lemma insert_checked_pure {A : Type} (x : pyval * A) (l : list (pyval * A)) :
  (forall a b, a ∈ x :: l -> b ∈ x :: l ->
               py_lt (fst a) (fst b) = Ok (py_lt_total (fst a) (fst b))) ->
  insert_checked x l
  = Ok (insert_sorted (fun a b => py_lt_total (fst a) (fst b)) x l).
Proof.
  induction l as [|y l IH]; intros H; simpl; [ reflexivity | ].
  rewrite (H y x) by (rewrite !elem_of_cons; auto).
  destruct (py_lt_total (fst y) (fst x)); [ | reflexivity ].
  rewrite IH; [ reflexivity | ].
  intros a b Ha Hb. apply H; rewrite !elem_of_cons in *; tauto.
Qed.

Lemma sort_checked_pure {A : Type} (l : list (pyval * A)) :
  (forall a b, a ∈ l -> b ∈ l ->
               py_lt (fst a) (fst b) = Ok (py_lt_total (fst a) (fst b))) ->
  sort_checked l = Ok (list_sort (fun a b => py_lt_total (fst a) (fst b)) l).
Proof.
  induction l as [|x l IH]; intros H; simpl; [ reflexivity | ].
  rewrite IH by (intros a b Ha Hb; apply H; right; assumption).
  apply insert_checked_pure.
  intros a b Ha Hb. apply H.
  - rewrite elem_of_cons in *. rewrite list_sort_perm in Ha. exact Ha.
  - rewrite elem_of_cons in *. rewrite list_sort_perm in Hb. exact Hb.
Qed.

(** Where every comparison raises, sorting two elements or more raises. *)
Lemma sort_checked_unorderable {A : Type} (l : list (pyval * A)) :
  (forall a b, a ∈ l -> b ∈ l -> py_lt (fst a) (fst b) = Raise TypeError) ->
  (2 <= length l)%nat ->
  sort_checked l = Raise TypeError.
Proof.
  destruct l as [|x l]; simpl; [ lia | ].
  intros H Hlen.
  destruct (sort_checked l) as [r|e] eqn:E.
  - pose proof (sort_checked_perm _ _ E) as Hperm.
    destruct r as [|y r].
    + apply Permutation_nil_l in Hperm. subst l. simpl in Hlen. lia.
    + simpl. rewrite (H y x); [ reflexivity | right | left ].
      rewrite <- Hperm. left.
  - apply sort_checked_raises in E. subst e. reflexivity.
Qed.

Lemma decorate_ok {A : Type} (key : A -> result pyval) (kf : A -> pyval) (l : list A) :
  (forall x, key x = Ok (kf x)) ->
  decorate key l = Ok ((fun x => (kf x, x)) <$> l).
Proof.
  intros H. induction l as [|x l IH]; simpl; [ reflexivity | ].
  rewrite H, IH. reflexivity.
Qed.

(** Sorting by an attribute whose values [kf] are mutually comparable. *)
Lemma sort_by_attr_orderable (o : Oracle) (sort : string) (kf : Patient -> pyval)
    (l : list Patient) :
  (forall p, getattr o p sort = Ok (kf p)) ->
  (forall p q, py_lt (kf p) (kf q) = Ok (py_lt_total (kf p) (kf q))) ->
  sort_by_attr o sort l = Ok (list_sort (fun a b => py_lt_total (kf a) (kf b)) l)
  /\ Sorted (attr_le o sort) (list_sort (fun a b => py_lt_total (kf a) (kf b)) l).
Proof.
  intros Hget Hlt. split.
  - unfold sort_by_attr. rewrite (decorate_ok _ kf) by exact Hget.
    rewrite sort_checked_pure.
    + rewrite (list_sort_fmap (fun x => (kf x, x))
                 (fun a b => py_lt_total (fst a) (fst b))).
      rewrite <- list_fmap_compose. simpl.
      rewrite list_fmap_id. reflexivity.
    + intros a b Ha Hb.
      apply list_elem_of_fmap in Ha as (p & -> & _).
      apply list_elem_of_fmap in Hb as (q & -> & _). apply Hlt.
  - rewrite <- (list_fmap_id (list_sort _ l)).
    apply (Sorted_fmap _ (not_after (fun a b => py_lt_total (kf a) (kf b)))).
    + intros a b Hab. exists (kf a), (kf b). split_and!; try apply Hget.
      rewrite Hlt. f_equal. exact Hab.
    + apply list_sort_Sorted. intros a b. apply py_lt_total_asym.
Qed.

(** Sorting by an attribute that holds dicts or methods. *)
Lemma sort_by_attr_unorderable (o : Oracle) (sort : string) (kf : Patient -> pyval)
    (l : list Patient) :
  (forall p, getattr o p sort = Ok (kf p)) ->
  (forall p q, py_lt (kf p) (kf q) = Raise TypeError) ->
  (2 <= length l)%nat ->
  sort_by_attr o sort l = Raise TypeError.
Proof.
  intros Hget Hlt Hlen.
  unfold sort_by_attr. rewrite (decorate_ok _ kf) by exact Hget.
  rewrite sort_checked_unorderable; [ reflexivity | | rewrite length_fmap; exact Hlen ].
  intros a b Ha Hb.
  apply list_elem_of_fmap in Ha as (p & -> & _).
  apply list_elem_of_fmap in Hb as (q & -> & _). apply Hlt.
Qed.

(** C10 (as stated, refuted): [queue_position] is an attribute of every
    patient, yet the request that sorts by it fails: on an empty store
    the endpoint generates 25 patients, gives each a [queue_position]
    dict, and the sort raises [TypeError] when it compares two dicts. *)
Lemma sort_by_queue_position_raises :
  let o := sample_oracle five_minutes (five_minutes + 1) (1 # 2) in
  (forall p, getattr o p "queue_position" = Ok PyDict)
  /\ snd (get_queue o (Some "queue_position") (world_of [] None)) = Raise TypeError.
Proof. split; [ intros p; reflexivity | vm_compute; reflexivity ]. Qed.

(** A name that is no attribute of a patient: the request fails with
    [AttributeError]. *)
Example sort_by_unknown_name_raises :
  snd (get_queue (sample_oracle five_minutes (five_minutes + 1) (1 # 2))
                 (Some "severity") (world_of [] None))
  = Raise AttributeError.
Proof. vm_compute. reflexivity. Qed.

(** Without the parameter the endpoint sorts by arrival time. *)
Example sort_default_is_arrival_time :
  (fun r => arrival_time <$> response_patients r)
    <$> (match snd (get_queue (sample_oracle five_minutes (five_minutes + 1) (1 # 2))
                              None world_fresh) with
         | Ok r => Some r
         | Raise _ => None
         end)
  = Some [4; 9].
Proof. vm_compute. reflexivity. Qed.

(** C10 (amended): the sort parameter is resolved by raw attribute lookup
    with no validation and no fallback.  On a non-empty list of patients:
    for [id], [triage_category], [arrival_time] and [time_elapsed], whose
    values are mutually comparable, the response lists the patients
    sorted by that attribute; for a name that is no attribute of a
    patient the request fails with [AttributeError]; for [status],
    [queue_position] and [serialize], which hold dicts or a method, the
    request fails with [TypeError] as soon as there are two patients. *)
Theorem respond_sort_parameter (o : Oracle) (sort : string) (p : Patient) (l : list Patient) :
  (sort ∈ ["id"; "triage_category"; "arrival_time"; "time_elapsed"] ->
     exists r, respond o sort (p :: l) = Ok r
               /\ response_patients r ≡ₚ p :: l
               /\ Sorted (attr_le o sort) (response_patients r)
               /\ waitingCount r = Z.of_nat (length (p :: l)))
  /\ (getattr o p sort = Raise AttributeError ->
      respond o sort (p :: l) = Raise AttributeError)
  /\ (sort ∈ ["status"; "queue_position"; "serialize"] -> l <> [] ->
      respond o sort (p :: l) = Raise TypeError).
Proof.
  split_and!.
  - intros Hsort.
    assert (exists kf, (forall q, getattr o q sort = Ok (kf q))
                       /\ forall a b, py_lt (kf a) (kf b)
                                      = Ok (py_lt_total (kf a) (kf b))) as (kf & Hget & Hlt).
    { rewrite !elem_of_cons in Hsort.
      destruct Hsort as [->|[->|[->|[->|Hsort]]]].
      - exists (fun q => PyStr (id q)). split; reflexivity.
      - exists (fun q => PyInt (triage_category q)). split; reflexivity.
      - exists (fun q => PyInt (arrival_time q)). split; reflexivity.
      - exists (fun q => PyInt (time_elapsed o q)). split; reflexivity.
      - apply not_elem_of_nil in Hsort. contradiction. }
    destruct (sort_by_attr_orderable o sort kf (p :: l) Hget Hlt) as [Heq Hsorted].
    unfold respond. rewrite Heq. eexists. split; [ reflexivity | ]. cbn [response_patients waitingCount].
    split_and!.
    + apply list_sort_perm.
    + exact Hsorted.
    + rewrite (list_sort_perm _ (p :: l)). reflexivity.
  - intros Hget. unfold respond, sort_by_attr.
    cbn [decorate]. rewrite Hget. reflexivity.
  - intros Hsort Hl.
    assert (exists kf, (forall q, getattr o q sort = Ok (kf q))
                       /\ forall a b, py_lt (kf a) (kf b) = Raise TypeError)
      as (kf & Hget & Hlt).
    { rewrite !elem_of_cons in Hsort.
      destruct Hsort as [->|[->|[->|Hsort]]].
      - exists (fun _ => PyDict). split; reflexivity.
      - exists (fun _ => PyDict). split; reflexivity.
      - exists (fun _ => PyMethod). split; reflexivity.
      - apply not_elem_of_nil in Hsort. contradiction. }
    unfold respond. rewrite (sort_by_attr_unorderable o sort kf); auto.
    destruct l; [ contradiction | simpl; lia ].
Qed.

(** ** More on the investigation sub-state machine *)

Lemma progress_test_step (t : string) (p : Patient) (inv : gmap string string) (s : string) :
  investigations (status p) = Some inv -> inv !! t = Some s ->
  progress_test t p
  = (with_status (mkStatus (current_phase (status p)) (Some (<[t := next_state s]> inv))) p,
     Ok tt).
Proof.
  intros Hinv Hs. unfold progress_test, bind, get, next_state. rewrite Hinv, Hs.
  repeat case_decide; try reflexivity.
  rewrite (insert_id inv t s Hs).
  destruct p as [i c a [ph inv0] q]. simpl in *. subst inv0. reflexivity.
Qed.

Lemma progress_test_missing (t : string) (p : Patient) (inv : gmap string string) :
  investigations (status p) = Some inv -> inv !! t = None ->
  progress_test t p = (p, Raise KeyError).
Proof.
  intros Hinv Hs. unfold progress_test, bind, get. rewrite Hinv, Hs. reflexivity.
Qed.

(** X1: a call on a patient at investigations_pending moves the phase to
    treatment and advances each test kind by one step, each on its own:
    ordered becomes pending, pending becomes reported, anything else
    stays; other keys of the mapping are left alone. *)
Theorem progress_advances_each_test (u : bool) (p : Patient) (inv : gmap string string)
    (sl si : string) :
  current_phase (status p) = "investigations_pending" ->
  investigations (status p) = Some inv ->
  inv !! "labs" = Some sl -> inv !! "imaging" = Some si ->
  progress_patient_phase u p
  = (with_status
       (mkStatus "treatment"
          (Some (<["imaging" := next_state si]> (<["labs" := next_state sl]> inv)))) p,
     Ok tt).
Proof.
  intros Hph Hinv Hl Hi. rewrite progress_patient_phase_unfold.
  rewrite Hph, Hinv. simpl. unfold bind.
  erewrite (progress_test_step "labs"); [ | reflexivity | exact Hl ]. simpl.
  erewrite (progress_test_step "imaging"); [ reflexivity | reflexivity | ].
  rewrite lookup_insert_ne by discriminate. exact Hi.
Qed.

(** A patient with labs already pending and imaging just ordered. *)
Lemma progress_advances_each_test_witness :
  let p := mkPatient "p-2" 2 0
             (mkStatus "investigations_pending" (Some (tests "pending" "ordered")))
             (mkQueuePosition 1 1) in
  progress_patient_phase true p
  = (with_status
       (mkStatus "treatment"
          (Some (<["imaging" := next_state "ordered"]>
                   (<["labs" := next_state "pending"]> (tests "pending" "ordered"))))) p,
     Ok tt).
Proof.
  apply (progress_advances_each_test true
           (mkPatient "p-2" 2 0
              (mkStatus "investigations_pending" (Some (tests "pending" "ordered")))
              (mkQueuePosition 1 1))
           (tests "pending" "ordered") "pending" "ordered"); reflexivity.
Defined.

(** X2: the investigations mapping changes only in a call that finds the
    phase at triaged or at investigations_pending.  In any other phase,
    and at investigations_pending when the patient carries no mapping
    (the guard of line 59), the call leaves [status.investigations] as it
    was and does not raise. *)
Theorem progress_leaves_investigations (u : bool) (p : Patient) :
  current_phase (status p) <> "triaged" ->
  current_phase (status p) <> "investigations_pending"
    \/ investigations (status p) = None ->
  investigations (status (progressed u p)) = investigations (status p)
  /\ snd (progress_patient_phase u p) = Ok tt.
Proof.
  intros Ht Hp. unfold progressed. rewrite progress_patient_phase_unfold.
  repeat case_decide; simpl; try (split; reflexivity); try contradiction.
  destruct Hp as [Hp| ->]; [ contradiction | split; reflexivity ].
Qed.

(** A patient in treatment that still carries its mapping. *)
Lemma progress_leaves_investigations_witness :
  let p := progressed false sample_patient in
  investigations (status (progressed true p)) = investigations (status p)
  /\ snd (progress_patient_phase true p) = Ok tt.
Proof.
  apply (progress_leaves_investigations true (progressed false sample_patient)).
  - vm_compute. discriminate.
  - left. vm_compute. discriminate.
Defined.

(** X3: a call on a patient at investigations_pending whose mapping lacks
    a test kind raises [KeyError], with the object already changed: the
    phase is treatment, and labs has been advanced when it is imaging
    that is missing. *)
Theorem progress_missing_test_kind (u : bool) (p : Patient) (inv : gmap string string) :
  current_phase (status p) = "investigations_pending" ->
  investigations (status p) = Some inv ->
  (inv !! "labs" = None ->
     progress_patient_phase u p
     = (with_status (mkStatus "treatment" (Some inv)) p, Raise KeyError))
  /\ (forall sl, inv !! "labs" = Some sl -> inv !! "imaging" = None ->
        progress_patient_phase u p
        = (with_status (mkStatus "treatment" (Some (<["labs" := next_state sl]> inv))) p,
           Raise KeyError)).
Proof.
  intros Hph Hinv. rewrite progress_patient_phase_unfold. rewrite Hph, Hinv. simpl.
  unfold bind. split.
  - intros Hl.
    erewrite (progress_test_missing "labs"); [ reflexivity | reflexivity | exact Hl ].
  - intros sl Hl Hi.
    erewrite (progress_test_step "labs"); [ | reflexivity | exact Hl ]. simpl.
    erewrite (progress_test_missing "imaging"); [ reflexivity | reflexivity | ].
    rewrite lookup_insert_ne by discriminate. exact Hi.
Qed.

(** A mapping that only has labs. *)
Lemma progress_missing_test_kind_witness :
  let inv : gmap string string := <["labs" := "ordered"]> ∅ in
  let p := mkPatient "p-3" 4 0 (mkStatus "investigations_pending" (Some inv))
             (mkQueuePosition 1 1) in
  (inv !! "labs" = None ->
     progress_patient_phase false p
     = (with_status (mkStatus "treatment" (Some inv)) p, Raise KeyError))
  /\ (forall sl, inv !! "labs" = Some sl -> inv !! "imaging" = None ->
        progress_patient_phase false p
        = (with_status (mkStatus "treatment" (Some (<["labs" := next_state sl]> inv))) p,
           Raise KeyError)).
Proof.
  apply (progress_missing_test_kind false
           (mkPatient "p-3" 4 0
              (mkStatus "investigations_pending" (Some (<["labs" := "ordered"]> ∅)))
              (mkQueuePosition 1 1))
           (<["labs" := "ordered"]> ∅)); reflexivity.
Defined.

(** ** More on the pass *)

Lemma store_all_is_Some (l : list Patient) (m : gmap string Patient) (k : string) :
  is_Some (store_all l m !! k) <-> k ∈ id <$> l \/ is_Some (m !! k).
Proof.
  unfold store_all. revert m. induction l as [|p l IH]; intros m; simpl.
  - split; [ auto | intros [H|H]; [ apply not_elem_of_nil in H; contradiction | exact H ] ].
  - rewrite IH, elem_of_cons, lookup_insert. case_decide as Hk.
    + subst k. split; [ auto | eauto ].
    + split; [ tauto | intros [[H|H]|H]; [ congruence | auto | auto ] ].
Qed.

Lemma no_terminal_dead (o : Oracle) (w : World) :
  scan_ok o ->
  (forall k p, patients w !! k = Some p -> ~ terminal p) ->
  dead (patient_list o w) = [].
Proof.
  intros Hscan Hlive.
  destruct (dead (patient_list o w)) as [|d ds] eqn:E; [ reflexivity | ].
  assert (d ∈ dead (patient_list o w)) as Hd by (rewrite E; left).
  apply dead_elem in Hd as [Ht Hd].
  apply (patient_list_stored o w d Hscan) in Hd as [k Hk].
  exfalso. exact (Hlive k d Hk Ht).
Qed.

(** X4: whenever no stored patient is terminal and the growth condition
    of line 118 holds, the pass raises [UnboundLocalError] (the patients
    being well-formed, so that nothing raises before), the keyspace of
    patients is left as it was, and a request that finds a stored
    timestamp fails with that error. *)
Theorem growth_without_removal_always_raises (o : Oracle) (sort_arg : option string)
    (w : World) :
  scan_ok o ->
  (forall k p, patients w !! k = Some p -> ~ terminal p /\ well_formed p) ->
  growth_due o w = true ->
  snd (update_patients o w) = Raise UnboundLocalError
  /\ patients (fst (update_patients o w)) = patients w
  /\ (is_Some (last_update w) ->
      snd (get_queue o sort_arg w) = Raise UnboundLocalError).
Proof.
  intros Hscan Hstore Hgrow.
  assert (dead (patient_list o w) = []) as Hdead
    by (apply no_terminal_dead; [ exact Hscan | intros k p H; apply (Hstore k p H) ]).
  assert (Forall well_formed (patient_list o w)) as Hl.
  { apply Forall_forall. intros p Hp.
    apply (patient_list_stored o w p Hscan) in Hp as [k Hk]. apply (Hstore k p Hk). }
  assert (snd (update_patients o w) = Raise UnboundLocalError) as Hraise.
  { unfold update_patients.
    unfold bind at 1. rewrite get_patients_eq.
    unfold bind at 1. unfold set_last_update at 1, modify at 1.
    unfold bind at 1. fold (patient_list o w). fold (growth_due o w).
    match goal with |- context [first_pass o _ ?w0] =>
      destruct (first_pass_completes o _ w0 Hl) as (w1 & marked & E1 & Hm) end.
    rewrite E1. apply first_pass_ok in E1 as [HF _].
    rewrite (marks_removed _ _ HF), Hdead, Hgrow. reflexivity. }
  split_and!.
  - exact Hraise.
  - apply update_patients_no_removal; [ exact Hscan | ].
    intros k p H. apply (Hstore k p H).
  - intros [t Ht]. unfold get_queue. unfold bind at 1.
    rewrite (schedule_later_request o w t Ht).
    destruct (update_patients o w) as [w1 [[]|e]]; simpl in Hraise; [ discriminate | ].
    injection Hraise as ->. reflexivity.
Qed.

Lemma world_one_live (k : string) (p : Patient) :
  patients world_one !! k = Some p -> ~ terminal p /\ well_formed p.
Proof.
  intros H. apply elem_of_list_to_map_2 in H.
  apply list_elem_of_singleton in H. injection H as -> ->.
  split; [ vm_compute; discriminate | ].
  split; [ simpl; lia | discriminate ].
Qed.

(** The sample store of one, with the growth draw firing. *)
Lemma growth_without_removal_always_raises_witness :
  let o := sample_oracle five_minutes (five_minutes + 1) (1 # 10) in
  snd (update_patients o world_one) = Raise UnboundLocalError
  /\ patients (fst (update_patients o world_one)) = patients world_one
  /\ (is_Some (last_update world_one) ->
      snd (get_queue o None world_one) = Raise UnboundLocalError).
Proof.
  apply (growth_without_removal_always_raises
           (sample_oracle five_minutes (five_minutes + 1) (1 # 10)) None world_one).
  - apply sample_oracle_scan_ok.
  - apply world_one_live.
  - vm_compute. reflexivity.
Defined.

(** X5: a population without a terminal patient is frozen: whatever the
    environments, and whether the passes complete or raise, any number of
    passes leaves the stored patients exactly as they were and writes
    nothing; phases only reach the store in a pass that also removes
    somebody. *)
Theorem population_without_terminal_is_frozen (os : list Oracle) (w : World) :
  Forall scan_ok os ->
  (forall k p, patients w !! k = Some p -> ~ terminal p) ->
  patients (run_passes os w) = patients w /\ added (run_passes os w) = added w.
Proof.
  intros Hos. revert w. unfold run_passes.
  induction Hos as [|o os Ho Hos IH]; intros w Hlive; simpl; [ split; reflexivity | ].
  destruct (update_patients_no_removal o w Ho Hlive) as (Hp & Ha & _).
  destruct (IH (fst (update_patients o w))) as [Hp' Ha'].
  - rewrite Hp. exact Hlive.
  - rewrite Hp', Ha'. split; assumption.
Qed.

(** Three passes over the sample store of one. *)
Lemma population_without_terminal_is_frozen_witness :
  let os := [sample_oracle 0 1 (1 # 2); sample_oracle 0 2 (1 # 10);
             sample_oracle 0 3 (1 # 2)] in
  patients (run_passes os world_one) = patients world_one
  /\ added (run_passes os world_one) = added world_one.
Proof.
  apply (population_without_terminal_is_frozen
           [sample_oracle 0 1 (1 # 2); sample_oracle 0 2 (1 # 10);
            sample_oracle 0 3 (1 # 2)] world_one).
  - repeat constructor; apply sample_oracle_scan_ok.
  - intros k p H. apply (world_one_live k p H).
Defined.

Lemma generated_ids (o : Oracle) (w : World) (rp ex : list Patient) :
  dead (patient_list o w) <> [] ->
  Forall2 positioned
    (mock_patient o <$> seq (mocks w) (length (dead (patient_list o w)))) rp ->
  Forall2 positioned
    (if growth_due o w
     then [mock_patient o (mocks w + length (dead (patient_list o w)))]
     else []) ex ->
  id <$> (rp ++ ex)
  = (fun i => id (mock_patient o i)) <$> seq (mocks w) (generated_count o w).
Proof.
  intros Hdead HR HE. unfold generated_count.
  destruct (dead (patient_list o w)) as [|d ds]; [ contradiction | ].
  rewrite fmap_app, (positioned_ids _ _ HR), (positioned_ids _ _ HE).
  rewrite seq_app, fmap_app, <- list_fmap_compose. f_equal.
  destruct (growth_due o w); reflexivity.
Qed.

(** X6: the ids in the store after a completed pass are exactly the ids
    of the stored patients that were not terminal when the pass started,
    and the ids of the patients the pass generated. *)
Theorem stored_ids_after_pass (o : Oracle) (w w' : World) (k : string) :
  scan_ok o -> keyed_by_id (patients w) ->
  update_patients o w = (w', Ok tt) ->
  is_Some (patients w' !! k)
  <-> (exists p, patients w !! k = Some p /\ ~ terminal p)
      \/ (exists i, (mocks w <= i < mocks w + generated_count o w)%nat
                    /\ id (mock_patient o i) = k).
Proof.
  intros Hscan Hkey Hrun.
  destruct (patient_list_keyed o w Hscan Hkey) as (Hperm & Hnd & Hin).
  assert (forall p, patients w !! k = Some p -> p ∈ patient_list o w /\ id p = k) as Hk.
  { intros p Hp. pose proof (Hkey _ _ Hp) as Hid. subst k. split; [ apply Hin, Hp | reflexivity ]. }
  apply update_patients_ok in Hrun
    as [_ [(Hdead & _ & Hpat & _)
          | (Hdead & marked & sv & rp & ex & HM & Hsv & HR & HE & _ & _ & Hpat & _)]].
  - rewrite Hpat. unfold generated_count. rewrite Hdead. split.
    + intros [p Hp]. left. exists p. split; [ exact Hp | ].
      intros Ht. destruct (Hk p Hp) as [HpL _].
      assert (p ∈ dead (patient_list o w)) as Hd by (apply dead_elem; auto).
      rewrite Hdead in Hd. apply not_elem_of_nil in Hd. exact Hd.
    + intros [(p & Hp & _)|(i & Hi & _)]; [ eauto | lia ].
  - pose proof (survivors_advanced _ _ _ HM Hsv) as HA.
    pose proof (generated_ids o w rp ex Hdead HR HE) as Hgen.
    rewrite Hpat, store_all_is_Some, !fmap_app, elem_of_app.
    rewrite <- fmap_app, Hgen, (advanced_ids _ _ HA).
    rewrite purge_lookup.
    assert (k ∈ id <$> live (patient_list o w)
            <-> exists p, patients w !! k = Some p /\ ~ terminal p) as Hlive.
    { rewrite list_elem_of_fmap. split.
      - intros (p & -> & Hp). apply live_elem in Hp as [Hnt Hp].
        exists p. split; [ apply Hin, Hp | exact Hnt ].
      - intros (p & Hp & Hnt). destruct (Hk p Hp) as [HpL Hid].
        exists p. split; [ auto | apply live_elem; auto ]. }
    assert (k ∈ (fun i => id (mock_patient o i)) <$> seq (mocks w) (generated_count o w)
            <-> exists i, (mocks w <= i < mocks w + generated_count o w)%nat
                          /\ id (mock_patient o i) = k) as Hmock.
    { rewrite list_elem_of_fmap. split.
      - intros (i & -> & Hi). apply elem_of_seq in Hi. eauto.
      - intros (i & Hi & <-). exists i. split; [ reflexivity | apply elem_of_seq, Hi ]. }
    rewrite Hlive, Hmock. split; [ | tauto ].
    intros [[H|H]|H]; [ auto | auto | ].
    case_decide as Hd; [ destruct H as [? H]; discriminate | ].
    destruct H as [p Hp]. left. exists p. split; [ exact Hp | ].
    intros Ht. apply Hd. destruct (Hk p Hp) as [HpL <-].
    apply list_elem_of_fmap. exists p. split; [ reflexivity | apply dead_elem; auto ].
Qed.

(** Key ["mock-0"], the replacement, in the sample store of two. *)
Lemma stored_ids_after_pass_witness :
  let o := sample_oracle 0 1 (1 # 2) in
  let w' := fst (update_patients o world_two) in
  is_Some (patients w' !! "mock-0")
  <-> (exists p, patients world_two !! "mock-0" = Some p /\ ~ terminal p)
      \/ (exists i, (mocks world_two <= i < mocks world_two + generated_count o world_two)%nat
                    /\ id (mock_patient o i) = "mock-0").
Proof.
  apply (stored_ids_after_pass (sample_oracle 0 1 (1 # 2)) world_two).
  - apply sample_oracle_scan_ok.
  - apply world_of_keyed.
  - vm_compute. reflexivity.
Defined.

(** X7: the life of a patient in treatment over two completed passes,
    the first of which removes somebody else: the first pass stores the
    patient with a terminal phase, the second removes it.  Generated
    patients are taken not to reuse the patient's id. *)
Theorem treatment_then_purged (o1 o2 : Oracle) (w w1 w2 : World) (p : Patient) :
  scan_ok o1 -> scan_ok o2 -> keyed_by_id (patients w) ->
  update_patients o1 w = (w1, Ok tt) ->
  update_patients o2 w1 = (w2, Ok tt) ->
  patients w !! id p = Some p ->
  current_phase (status p) = "treatment" ->
  dead (patient_list o1 w) <> [] ->
  (forall n, id (mock_patient o1 n) <> id p) ->
  (forall n, id (mock_patient o2 n) <> id p) ->
  (exists a, patients w1 !! id p = Some a /\ terminal a)
  /\ patients w2 !! id p = None.
Proof.
  intros Hs1 Hs2 Hkey Hrun1 Hrun2 Hp Hph Hdead Hm1 Hm2.
  assert (~ terminal p) as Hnt by (unfold terminal; rewrite Hph; vm_compute; discriminate).
  destruct (pass_lookup o1 w w1 p Hs1 Hkey Hrun1 Hp Hm1) as (_ & _ & H1).
  destruct (H1 Hnt Hdead) as (a & Ha & Hadv).
  assert (id a = id p) as Hid by (apply advanced_fields in Hadv; tauto).
  assert (terminal a) as Hta.
  { destruct Hadv as (u & p' & Hprog & Hpos).
    apply positioned_fields in Hpos as (_ & _ & _ & Hst).
    rewrite progress_patient_phase_unfold in Hprog. rewrite Hph in Hprog.
    simpl in Hprog. injection Hprog as <-.
    unfold terminal. rewrite Hst. simpl. destruct u; vm_compute; reflexivity. }
  split; [ eauto | ].
  assert (keyed_by_id (patients w1)) as Hkey1.
  { pose proof (update_patients_keyed o1 w Hkey) as H. rewrite Hrun1 in H. exact H. }
  rewrite <- Hid in Ha, Hm2 |- *.
  destruct (pass_lookup o2 w1 w2 a Hs2 Hkey1 Hrun2 Ha Hm2) as (H2 & _).
  apply H2, Hta.
Qed.

(** Two passes over the sample store of two. *)
Lemma treatment_then_purged_witness :
  let o1 := sample_oracle 0 1 (1 # 2) in
  let o2 := sample_oracle 0 2 (1 # 2) in
  let w1 := fst (update_patients o1 world_two) in
  let w2 := fst (update_patients o2 w1) in
  let p := plain_patient "b" 1 7 "treatment" in
  (exists a, patients w1 !! id p = Some a /\ terminal a)
  /\ patients w2 !! id p = None.
Proof.
  apply (treatment_then_purged (sample_oracle 0 1 (1 # 2)) (sample_oracle 0 2 (1 # 2))
           world_two _ _ (plain_patient "b" 1 7 "treatment")).
  - apply sample_oracle_scan_ok.
  - apply sample_oracle_scan_ok.
  - apply world_of_keyed.
  - vm_compute. reflexivity.
  - vm_compute. reflexivity.
  - vm_compute. reflexivity.
  - reflexivity.
  - vm_compute. discriminate.
  - intros n. simpl. discriminate.
  - intros n. simpl. discriminate.
Defined.

(** ** The bootstrap of an empty store *)

Lemma generate_mock_patients_eq (o : Oracle) (n : nat) (w : World) :
  generate_mock_patients o n w
  = (mkWorld (patients w) (last_update w) (added w) (draws w) (mocks w + n),
     Ok (mock_patient o <$> seq (mocks w) n)).
Proof.
  revert w. induction n as [|n IH]; intros w; simpl.
  - unfold ret. destruct w. simpl. rewrite Nat.add_0_r. reflexivity.
  - unfold bind at 1. unfold generate_mock_patient at 1.
    unfold bind at 1. rewrite IH. simpl. unfold ret.
    repeat f_equal. lia.
Qed.

Lemma scanned_empty (o : Oracle) (w : World) :
  scan_ok o -> patients w = ∅ -> scanned o w = [].
Proof.
  intros Hscan He. unfold scanned.
  assert (scan_iter o (patients w) = []) as ->; [ | reflexivity ].
  apply Permutation_nil_r. rewrite (Hscan (patients w)), He, map_to_list_empty.
  reflexivity.
Qed.

(** The loop of lines 163-172 on patients with valid categories. *)
Lemma number_all_ok (l acc : list Patient) (g : Z) (c : gmap Z Z) (w : World) :
  counters_after acc g c -> positions_dense acc -> counters_total c ->
  Forall valid_category l ->
  exists l',
    number_all l g c w
    = (mkWorld (store_all l' (patients w)) (last_update w) (added w ++ l')
               (draws w) (mocks w), Ok l')
    /\ Forall2 positioned l l'
    /\ positions_dense (acc ++ l').
Proof.
  intros Hc Hd Ht Hl. revert acc g c w Hc Hd Ht.
  induction Hl as [|p l Hp Hl IH]; intros acc g c w Hc Hd Ht; simpl.
  - exists []. rewrite !app_nil_r. split_and!;
      [ destruct w; reflexivity | constructor | exact Hd ].
  - destruct (Ht _ Hp) as [ck Hck]. rewrite Hck.
    destruct (numbering_step acc g c p ck Hc Hd Hck) as [Hc1 Hd1].
    assert (counters_total (<[triage_category p := ck + 1]> c)) as Ht1.
    { intros k Hk. rewrite lookup_insert. case_decide; [ eauto | apply Ht, Hk ]. }
    unfold bind at 1. unfold add_patient at 1, modify at 1.
    unfold bind at 1.
    match goal with |- context [number_all l ?g1 ?c1 ?w1] =>
      destruct (IH _ g1 c1 w1 Hc1 Hd1 Ht1) as (l' & -> & HF & Hd') end.
    eexists (_ :: l'). rewrite <- app_assoc in Hd'. simpl in *.
    split_and!; [ | constructor; [ eexists; reflexivity | exact HF ] | exact Hd' ].
    unfold ret. rewrite <- app_assoc. reflexivity.
Qed.

(** The same loop when a patient has a category outside 1..5: the
    patients before it are stored, then [KeyError]. *)
Lemma number_all_raises (l1 l2 acc : list Patient) (p : Patient) (g : Z) (c : gmap Z Z)
    (w : World) :
  counters_after acc g c -> positions_dense acc -> counters_total c ->
  counters_only c ->
  Forall valid_category l1 -> ~ valid_category p ->
  exists l1',
    number_all (l1 ++ p :: l2) g c w
    = (mkWorld (store_all l1' (patients w)) (last_update w) (added w ++ l1')
               (draws w) (mocks w), Raise KeyError)
    /\ Forall2 positioned l1 l1'
    /\ positions_dense (acc ++ l1').
Proof.
  intros Hc Hd Ht Ho Hl Hp. revert acc g c w Hc Hd Ht Ho.
  induction Hl as [|q l1 Hq Hl IH]; intros acc g c w Hc Hd Ht Ho; simpl.
  - exists []. rewrite !app_nil_r.
    destruct (c !! triage_category p) as [ck|] eqn:E.
    + exfalso. apply Hp. apply Ho. eauto.
    + split_and!; [ destruct w; reflexivity | constructor | exact Hd ].
  - destruct (Ht _ Hq) as [ck Hck]. rewrite Hck.
    destruct (numbering_step acc g c q ck Hc Hd Hck) as [Hc1 Hd1].
    assert (counters_total (<[triage_category q := ck + 1]> c)) as Ht1.
    { intros k Hk. rewrite lookup_insert. case_decide; [ eauto | apply Ht, Hk ]. }
    assert (counters_only (<[triage_category q := ck + 1]> c)) as Ho1.
    { intros k. rewrite lookup_insert. case_decide; [ subst k; auto | apply Ho ]. }
    unfold bind at 1. unfold add_patient at 1, modify at 1.
    unfold bind at 1.
    match goal with |- context [number_all _ ?g1 ?c1 ?w1] =>
      destruct (IH _ g1 c1 w1 Hc1 Hd1 Ht1 Ho1) as (l' & -> & HF & Hd') end.
    eexists (_ :: l'). rewrite <- app_assoc in Hd'. simpl in *.
    split_and!; [ | constructor; [ eexists; reflexivity | exact HF ] | exact Hd' ].
    rewrite <- app_assoc. reflexivity.
Qed.

Lemma counters_only_initial : counters_only initial_category_positions.
Proof.
  intros k [ck Hk]. apply initial_category_positions_lookup in Hk. tauto.
Qed.

Lemma decorate_values {A : Type} (key : A -> result pyval) (l : list A)
    (d : list (pyval * A)) :
  decorate key l = Ok d -> snd <$> d = l.
Proof.
  revert d. induction l as [|x l IH]; simpl; intros d.
  - intros [= <-]. reflexivity.
  - destruct (key x); [ | discriminate ].
    destruct (decorate key l) as [r|]; [ | discriminate ].
    intros [= <-]. rewrite fmap_cons. f_equal. apply IH. reflexivity.
Qed.

Lemma sort_by_attr_perm (o : Oracle) (sort : string) (l s : list Patient) :
  sort_by_attr o sort l = Ok s -> s ≡ₚ l.
Proof.
  unfold sort_by_attr.
  destruct (decorate _ l) as [d|] eqn:Ed; [ | discriminate ].
  destruct (sort_checked d) as [r|] eqn:Er; [ | discriminate ].
  intros [= <-]. rewrite (sort_checked_perm _ _ Er).
  rewrite (decorate_values _ _ _ Ed). reflexivity.
Qed.

Lemma foldl_max_spec (a : Z) (l : list Z) :
  foldl Z.max a l ∈ a :: l /\ forall x, x ∈ a :: l -> x <= foldl Z.max a l.
Proof.
  revert a. induction l as [|y l IH]; intros a; simpl.
  - split; [ left | ]. intros x Hx. apply list_elem_of_singleton in Hx. lia.
  - destruct (IH (Z.max a y)) as [Hin Hle]. split.
    + apply elem_of_cons in Hin as [Hin|Hin]; [ | right; right; exact Hin ].
      rewrite Hin. destruct (Z.max_spec a y) as [[_ ->]|[_ ->]];
        [ right; left | left ].
    + intros x Hx. rewrite !elem_of_cons in Hx.
      destruct Hx as [->|[->|Hx]].
      * specialize (Hle (Z.max a y) ltac:(left)). lia.
      * specialize (Hle (Z.max a y) ltac:(left)). lia.
      * apply Hle. right. exact Hx.
Qed.

(** X8: whenever the final stage of the queue request (lines 174-182)
    answers, the answer lists exactly the patients it was given,
    [waitingCount] is their number, and [longestWaitTime] is the largest
    [time_elapsed] among them, or 0 when there is none. *)
Theorem respond_counts_and_longest_wait (o : Oracle) (sort : string) (l : list Patient)
    (r : Response) :
  respond o sort l = Ok r ->
  response_patients r ≡ₚ l
  /\ waitingCount r = Z.of_nat (length l)
  /\ (forall p, p ∈ l -> time_elapsed o p <= longestWaitTime r)
  /\ (l <> [] -> exists p, p ∈ l /\ longestWaitTime r = time_elapsed o p)
  /\ (l = [] -> longestWaitTime r = 0).
Proof.
  unfold respond. destruct (sort_by_attr o sort l) as [s|] eqn:Es; [ | discriminate ].
  intros [= <-]. simpl. pose proof (sort_by_attr_perm _ _ _ _ Es) as Hperm.
  split_and!.
  - exact Hperm.
  - rewrite Hperm. reflexivity.
  - intros p Hp. rewrite <- Hperm in Hp.
    assert (time_elapsed o p ∈ time_elapsed o <$> s) as Hin
      by (apply list_elem_of_fmap; eauto).
    destruct (time_elapsed o <$> s) as [|x xs]; [ inversion Hin | ].
    simpl. apply foldl_max_spec. exact Hin.
  - intros Hne. destruct s as [|q s].
    + apply Permutation_nil_l in Hperm. congruence.
    + simpl. destruct (foldl_max_spec (time_elapsed o q) (time_elapsed o <$> s)) as [Hin _].
      change (time_elapsed o q :: (time_elapsed o <$> s))
        with (time_elapsed o <$> q :: s) in Hin.
      apply list_elem_of_fmap in Hin as (p & Hp & Hps).
      exists p. split; [ rewrite <- Hperm; exact Hps | exact Hp ].
  - intros ->. apply Permutation_nil_r in Hperm. subst s. reflexivity.
Qed.

(** Two patients, sorted by arrival time. *)
Lemma respond_counts_and_longest_wait_witness :
  let o := sample_oracle 0 1 (1 # 2) in
  let l := [plain_patient "c" 3 9 "registered"; plain_patient "d" 1 4 "treatment"] in
  let r := mkResponse 2 (-3)
             [plain_patient "d" 1 4 "treatment"; plain_patient "c" 3 9 "registered"] in
  response_patients r ≡ₚ l
  /\ waitingCount r = Z.of_nat (length l)
  /\ (forall p, p ∈ l -> time_elapsed o p <= longestWaitTime r)
  /\ (l <> [] -> exists p, p ∈ l /\ longestWaitTime r = time_elapsed o p)
  /\ (l = [] -> longestWaitTime r = 0).
Proof.
  apply (respond_counts_and_longest_wait (sample_oracle 0 1 (1 # 2)) "arrival_time").
  vm_compute. reflexivity.
Defined.

(** The request on an empty store with no timestamp, step by step. *)
Lemma get_queue_bootstrap_eq (o : Oracle) (sort_arg : option string) (w : World) :
  scan_ok o -> patients w = ∅ -> last_update w = None ->
  (forall i, valid_category (mock_patient o i)) ->
  exists l,
    Forall2 positioned (list_sort triage_key_lt (mock_patient o <$> seq (mocks w) 25)) l
    /\ positions_dense l
    /\ get_queue o sort_arg w
       = match respond o (default "arrival_time" sort_arg) l with
         | Ok r =>
             (mkWorld (store_all l ∅) (Some (now_request o)) (added w ++ l)
                      (draws w) (mocks w + 25), Ok r)
         | Raise e =>
             (mkWorld (store_all l ∅) (Some (now_request o)) (added w ++ l)
                      (draws w) (mocks w + 25), Raise e)
         end.
Proof.
  intros Hscan Hempty Hlu Hmock.
  set (ms := list_sort triage_key_lt (mock_patient o <$> seq (mocks w) 25)).
  assert (Forall valid_category ms) as Hms.
  { apply Forall_forall. intros p Hp. unfold ms in Hp. rewrite list_sort_perm in Hp.
    apply list_elem_of_fmap in Hp as (i & -> & _). apply Hmock. }
  unfold get_queue. unfold bind at 1. rewrite (schedule_first_request o w Hlu).
  unfold bind at 1. rewrite get_patients_eq.
  rewrite scanned_empty by (cbn [patients]; assumption).
  cbn [fmap list_fmap]. unfold bind at 1. unfold bind at 1.
  rewrite generate_mock_patients_eq.
  cbn [patients last_update added draws mocks]. fold ms.
  match goal with |- context [number_all ms 1 _ ?w1] =>
    destruct (number_all_ok ms [] 1 initial_category_positions w1
                counters_after_initial positions_dense_nil counters_total_initial Hms)
      as (l & -> & HF & Hd) end.
  cbn [patients last_update added draws mocks app] in *.
  exists l. rewrite Hempty. split_and!; [ exact HF | exact Hd | ].
  destruct (respond o (default "arrival_time" sort_arg) l); reflexivity.
Qed.

(** X9: the first request ever on an empty store generates 25 patients,
    sorts them by (triage category, arrival time), numbers them densely
    from 1 (globally and per category) in that order and stores them, all
    categories being in 1..5; when the final sort succeeds, the answer
    lists these 25 patients. *)
Theorem first_request_bootstraps (o : Oracle) (sort_arg : option string) (w : World) :
  scan_ok o -> patients w = ∅ -> last_update w = None ->
  (forall i, valid_category (mock_patient o i)) ->
  let w' := fst (get_queue o sort_arg w) in
  exists l,
    Forall2 positioned (list_sort triage_key_lt (mock_patient o <$> seq (mocks w) 25)) l
    /\ length l = 25%nat
    /\ positions_dense l
    /\ StronglySorted key_le (triage_key <$> l)
    /\ patients w' = store_all l ∅
    /\ added w' = added w ++ l
    /\ (forall r, snd (get_queue o sort_arg w) = Ok r ->
          response_patients r ≡ₚ l /\ waitingCount r = 25).
Proof.
  intros Hscan Hempty Hlu Hmock w'. unfold w'.
  destruct (get_queue_bootstrap_eq o sort_arg w Hscan Hempty Hlu Hmock)
    as (l & HF & Hd & ->).
  exists l.
  assert (length l = 25%nat) as Hlen.
  { apply Forall2_length in HF. rewrite <- HF.
    rewrite (list_sort_perm _ _), length_fmap, length_seq. reflexivity. }
  assert (triage_key <$> l
          = triage_key <$> list_sort triage_key_lt (mock_patient o <$> seq (mocks w) 25))
    as Hkeys.
  { eapply Forall2_fmap_eq; [ | exact HF ].
    intros a b H. apply positioned_fields in H. unfold triage_key.
    destruct H as (_ & -> & -> & _). reflexivity. }
  split_and!; [ exact HF | exact Hlen | exact Hd | | | | ].
  - rewrite Hkeys. apply list_sort_triage_sorted.
  - destruct (respond o _ l); reflexivity.
  - destruct (respond o _ l); reflexivity.
  - destruct (respond o (default "arrival_time" sort_arg) l) as [r|e] eqn:Er;
      cbn [snd]; [ | discriminate ].
    intros r' [= <-]. unfold respond in Er.
    destruct (sort_by_attr o _ l) as [s|] eqn:Es; [ | discriminate ].
    injection Er as <-. cbn [response_patients waitingCount].
    pose proof (sort_by_attr_perm _ _ _ _ Es) as Hp.
    split; [ exact Hp | rewrite Hp, Hlen; reflexivity ].
Qed.

Lemma sample_mock_valid (i : nat) : valid_category (sample_mock i).
Proof.
  unfold valid_category. simpl.
  pose proof (Nat.mod_upper_bound i 5 ltac:(lia)). lia.
Qed.

(** The first request on the empty sample store. *)
Lemma first_request_bootstraps_witness :
  let o := sample_oracle 0 1 (1 # 2) in
  let w := world_of [] None in
  let w' := fst (get_queue o None w) in
  exists l,
    Forall2 positioned (list_sort triage_key_lt (mock_patient o <$> seq (mocks w) 25)) l
    /\ length l = 25%nat
    /\ positions_dense l
    /\ StronglySorted key_le (triage_key <$> l)
    /\ patients w' = store_all l ∅
    /\ added w' = added w ++ l
    /\ (forall r, snd (get_queue o None w) = Ok r ->
          response_patients r ≡ₚ l /\ waitingCount r = 25).
Proof.
  apply (first_request_bootstraps (sample_oracle 0 1 (1 # 2)) None (world_of [] None)).
  - apply sample_oracle_scan_ok.
  - reflexivity.
  - reflexivity.
  - apply sample_mock_valid.
Defined.

(** X10: the bootstrap has no rollback.  On the first request on an
    empty store, if the sorted generated patients are [l1], then a
    patient whose triage category is outside 1..5, then [l2], the request
    fails with [KeyError] and the store is left holding the patients of
    [l1], numbered densely, and nothing else. *)
Theorem bootstrap_bad_category (o : Oracle) (sort_arg : option string) (w : World)
    (l1 l2 : list Patient) (p : Patient) :
  scan_ok o -> patients w = ∅ -> last_update w = None ->
  list_sort triage_key_lt (mock_patient o <$> seq (mocks w) 25) = l1 ++ p :: l2 ->
  Forall valid_category l1 -> ~ valid_category p ->
  let w' := fst (get_queue o sort_arg w) in
  snd (get_queue o sort_arg w) = Raise KeyError
  /\ exists l1',
       Forall2 positioned l1 l1' /\ positions_dense l1'
       /\ patients w' = store_all l1' ∅ /\ added w' = added w ++ l1'.
Proof.
  intros Hscan Hempty Hlu Hsorted Hl1 Hp w'.
  assert (exists l1',
             Forall2 positioned l1 l1' /\ positions_dense l1'
             /\ get_queue o sort_arg w
                = (mkWorld (store_all l1' ∅) (Some (now_request o)) (added w ++ l1')
                           (draws w) (mocks w + 25), Raise KeyError))
    as (l1' & HF & Hd & Heq).
  { unfold get_queue. unfold bind at 1. rewrite (schedule_first_request o w Hlu).
    unfold bind at 1. rewrite get_patients_eq.
    rewrite scanned_empty by (cbn [patients]; assumption).
    cbn [fmap list_fmap]. unfold bind at 1. unfold bind at 1.
    rewrite generate_mock_patients_eq.
    cbn [patients last_update added draws mocks]. rewrite Hsorted.
    match goal with |- context [number_all _ 1 _ ?w1] =>
      destruct (number_all_raises l1 l2 [] p 1 initial_category_positions w1
                  counters_after_initial positions_dense_nil counters_total_initial
                  counters_only_initial Hl1 Hp)
        as (l1' & -> & HF & Hd) end.
    cbn [patients last_update added draws mocks app] in *.
    exists l1'. rewrite Hempty. split_and!; [ exact HF | exact Hd | reflexivity ]. }
  unfold w'. rewrite Heq. split; [ reflexivity | ].
  exists l1'. split_and!; [ exact HF | exact Hd | reflexivity | reflexivity ].
Qed.

(** The faulty generator: 24 patients are stored before the error. *)
Lemma bootstrap_bad_category_witness :
  let w := world_of [] None in
  let sorted := list_sort triage_key_lt (mock_patient faulty_oracle <$> seq (mocks w) 25) in
  let w' := fst (get_queue faulty_oracle None w) in
  snd (get_queue faulty_oracle None w) = Raise KeyError
  /\ exists l1',
       Forall2 positioned (take 24 sorted) l1' /\ positions_dense l1'
       /\ patients w' = store_all l1' ∅ /\ added w' = added w ++ l1'.
Proof.
  apply (bootstrap_bad_category faulty_oracle None (world_of [] None)
           (take 24 (list_sort triage_key_lt
                       (mock_patient faulty_oracle <$> seq 0 25)))
           [] (plain_patient "mock-x" 9 3 "registered")).
  - intros m. reflexivity.
  - reflexivity.
  - reflexivity.
  - vm_compute. reflexivity.
  - apply (bool_decide_unpack (Forall (fun q => 1 <= triage_category q <= 5) _)).
    vm_compute. exact I.
  - unfold valid_category. simpl. lia.
Defined.

(** ** The patient endpoint *)

Lemma dict_get_elem {V : Type} (k : string) (v : V) (d : list (string * V)) :
  NoDup d.*1 -> (k, v) ∈ d -> dict_get k d = Some v.
Proof.
  induction d as [|[k' v'] d IH]; simpl; intros Hnd Hin.
  - inversion Hin.
  - apply NoDup_cons in Hnd as [Hk Hnd].
    apply elem_of_cons in Hin as [[= <- <-]|Hin].
    + rewrite decide_True by reflexivity. reflexivity.
    + case_decide as Hkk; [ | apply IH; assumption ].
      subst k'. exfalso. apply Hk. apply list_elem_of_fmap. exists (k, v). auto.
Qed.

Lemma dict_get_fresh {V : Type} (k : string) (d : list (string * V)) :
  k ∉ d.*1 -> dict_get k d = None.
Proof.
  induction d as [|[k' v'] d IH]; simpl; intros Hk; [ reflexivity | ].
  case_decide as Hkk.
  - subst k'. exfalso. apply Hk. left.
  - apply IH. intros Hin. apply Hk. right. exact Hin.
Qed.

Lemma get_patient_eq (o : Oracle) (k : string) (w : World) :
  scan_ok o -> keyed_by_id (patients w) ->
  get_patient o k w
  = (w, Ok (match patients w !! k with
            | Some p => PatientFound p
            | None => PatientNotFound
            end)).
Proof.
  intros Hscan Hkey. unfold get_patient. unfold bind. rewrite get_patients_eq.
  destruct (scanned_keyed o w Hscan Hkey) as (Heq & _ & Hnd).
  assert (forall k' p, (k', p) ∈ scanned o w <-> patients w !! k' = Some p) as Hin.
  { intros k' p. rewrite Heq, list_elem_of_fmap. split.
    - intros ([k0 p0] & [= -> ->] & H0). simpl.
      rewrite (Hscan (patients w)) in H0. apply elem_of_map_to_list in H0.
      rewrite (Hkey _ _ H0). exact H0.
    - intros Hp. exists (k', p). simpl. rewrite (Hkey _ _ Hp). split; [ reflexivity | ].
      rewrite (Hscan (patients w)). apply elem_of_map_to_list. exact Hp. }
  assert (NoDup (scanned o w).*1) as Hnd1.
  { rewrite Heq in Hnd |- *. rewrite <- !list_fmap_compose in *. exact Hnd. }
  destruct (patients w !! k) as [p|] eqn:Ep.
  - rewrite (dict_get_elem k p); [ reflexivity | exact Hnd1 | apply Hin, Ep ].
  - rewrite dict_get_fresh; [ reflexivity | ].
    intros Hk. apply list_elem_of_fmap in Hk as ([k' p] & -> & Hp).
    apply Hin in Hp. simpl in Ep. congruence.
Qed.

(** X11: on a store whose keys are the ids of its entries, the patient
    endpoint answers with the stored patient when the id is a key and
    with the not-found reply otherwise, and leaves the process state as
    it was. *)
Theorem get_patient_found_or_not (o : Oracle) (k : string) (w : World) :
  scan_ok o -> keyed_by_id (patients w) ->
  (forall p, patients w !! k = Some p -> get_patient o k w = (w, Ok (PatientFound p)))
  /\ (patients w !! k = None -> get_patient o k w = (w, Ok PatientNotFound)).
Proof.
  intros Hscan Hkey. rewrite (get_patient_eq o k w Hscan Hkey).
  split; [ intros p -> | intros -> ]; reflexivity.
Qed.

(** Key ["b"] in the sample store of two. *)
Lemma get_patient_found_or_not_witness :
  let o := sample_oracle 0 1 (1 # 2) in
  (forall p, patients world_two !! "b" = Some p ->
             get_patient o "b" world_two = (world_two, Ok (PatientFound p)))
  /\ (patients world_two !! "b" = None ->
      get_patient o "b" world_two = (world_two, Ok PatientNotFound)).
Proof.
  apply (get_patient_found_or_not (sample_oracle 0 1 (1 # 2)) "b" world_two).
  - apply sample_oracle_scan_ok.
  - apply world_of_keyed.
Defined.

Lemma add_patient_keyed (p : Patient) (w : World) :
  keyed_by_id (patients w) -> keyed_by_id (patients (fst (add_patient p w))).
Proof.
  intros H k q. simpl. rewrite lookup_insert.
  case_decide; [ intros [= <-]; congruence | apply H ].
Qed.

Lemma remove_patient_keyed (i : string) (w : World) :
  keyed_by_id (patients w) -> keyed_by_id (patients (fst (remove_patient i w))).
Proof.
  intros H k q. simpl. rewrite lookup_delete.
  case_decide; [ discriminate | apply H ].
Qed.

(** X12: storing and reading back.  After [add_patient p] the patient
    endpoint answers [p] for the id of [p] and what it answered before
    for every other id; after [remove_patient] of that id it answers
    not-found. *)
Theorem add_remove_then_get (o : Oracle) (p : Patient) (w : World) :
  scan_ok o -> keyed_by_id (patients w) ->
  let w1 := fst (add_patient p w) in
  let w2 := fst (remove_patient (id p) w1) in
  snd (get_patient o (id p) w1) = Ok (PatientFound p)
  /\ (forall k, k <> id p -> snd (get_patient o k w1) = snd (get_patient o k w))
  /\ snd (get_patient o (id p) w2) = Ok PatientNotFound.
Proof.
  intros Hscan Hkey w1 w2.
  pose proof (add_patient_keyed p w Hkey) as Hkey1.
  pose proof (remove_patient_keyed (id p) _ Hkey1) as Hkey2.
  split_and!.
  - rewrite (get_patient_eq o _ w1 Hscan Hkey1). simpl.
    rewrite lookup_insert_eq. reflexivity.
  - intros k Hk.
    rewrite (get_patient_eq o _ w1 Hscan Hkey1), (get_patient_eq o _ w Hscan Hkey).
    simpl. rewrite lookup_insert_ne by congruence. reflexivity.
  - rewrite (get_patient_eq o _ w2 Hscan Hkey2). simpl.
    rewrite lookup_delete_eq. reflexivity.
Qed.

(** A new patient in the sample store of one. *)
Lemma add_remove_then_get_witness :
  let o := sample_oracle 0 1 (1 # 2) in
  let p := plain_patient "e" 4 11 "triaged" in
  let w1 := fst (add_patient p world_one) in
  let w2 := fst (remove_patient (id p) w1) in
  snd (get_patient o (id p) w1) = Ok (PatientFound p)
  /\ (forall k, k <> id p -> snd (get_patient o k w1) = snd (get_patient o k world_one))
  /\ snd (get_patient o (id p) w2) = Ok PatientNotFound.
Proof.
  apply (add_remove_then_get (sample_oracle 0 1 (1 # 2))
           (plain_patient "e" 4 11 "triaged") world_one).
  - apply sample_oracle_scan_ok.
  - apply world_of_keyed.
Defined.

(** ** Ties in the canonical order *)

Lemma insert_sorted_stable {A K : Type} `{EqDecision K} (lt : A -> A -> bool)
    (key : A -> K) (k : K) (x : A) (l : list A) :
  (forall a b, lt a b = true -> key a <> key b) ->
  filter (fun a => key a = k) (insert_sorted lt x l)
  = filter (fun a => key a = k) (x :: l).
Proof.
  intros Hlt. induction l as [|y l IH]; simpl; [ reflexivity | ].
  destruct (lt y x) eqn:Hyx; [ | reflexivity ].
  rewrite (filter_cons _ y), IH, !filter_cons.
  pose proof (Hlt _ _ Hyx) as Hne.
  repeat case_decide; try reflexivity. congruence.
Qed.

Lemma list_sort_stable {A K : Type} `{EqDecision K} (lt : A -> A -> bool)
    (key : A -> K) (k : K) (l : list A) :
  (forall a b, lt a b = true -> key a <> key b) ->
  filter (fun a => key a = k) (list_sort lt l) = filter (fun a => key a = k) l.
Proof.
  intros Hlt. induction l as [|x l IH]; simpl; [ reflexivity | ].
  rewrite (insert_sorted_stable lt key k x _ Hlt), !filter_cons, IH. reflexivity.
Qed.

(** X13: ties keep the order of the snapshot.  The patients of the pass
    that share a (triage category, arrival time) key stand in
    [patient_list] in the order in which [get_patients] listed them. *)
Theorem patient_list_keeps_tie_order (o : Oracle) (w : World) (k : Z * Z) :
  filter (fun p => triage_key p = k) (patient_list o w)
  = filter (fun p => triage_key p = k) (snd <$> scanned o w).
Proof.
  unfold patient_list. apply list_sort_stable.
  intros a b. unfold triage_key_lt, triage_key. intros H [= H1 H2]. lia.
Qed.

(** ** The statistics endpoint *)

Lemma in_category_cons (k : Z) (p : Patient) (l : list Patient) :
  in_category k (p :: l)
  = if decide (triage_category p = k) then p :: in_category k l else in_category k l.
Proof. unfold in_category. rewrite filter_cons. reflexivity. Qed.

Lemma tally_ok (o : Oracle) (l : list Patient) (cb : gmap Z Z) (wt : gmap Z (list Z)) :
  Forall valid_category l -> has_categories cb -> has_categories wt ->
  exists cb' wt',
    tally o l cb wt = Ok (cb', wt')
    /\ (forall k, cb' !! k
                  = (fun n => n + Z.of_nat (length (in_category k l))) <$> cb !! k)
    /\ (forall k, wt' !! k
                  = (fun ts => ts ++ (time_elapsed o <$> in_category k l)) <$> wt !! k).
Proof.
  intros Hl. revert cb wt. induction Hl as [|p l Hp Hl IH]; intros cb wt Hcb Hwt; simpl.
  - exists cb, wt. split_and!; [ reflexivity | | ].
    + intros k. destruct (cb !! k); simpl; [ f_equal; lia | reflexivity ].
    + intros k. destruct (wt !! k); simpl; [ rewrite app_nil_r | ]; reflexivity.
  - destruct (Hcb _ Hp) as [n Hn]. destruct (Hwt _ Hp) as [ts Hts].
    rewrite Hn, Hts.
    destruct (IH (<[triage_category p := n + 1]> cb)
                 (<[triage_category p := ts ++ [time_elapsed o p]]> wt))
      as (cb' & wt' & -> & Hc & Hw).
    + intros k Hk. rewrite lookup_insert. case_decide; [ eauto | apply Hcb, Hk ].
    + intros k Hk. rewrite lookup_insert. case_decide; [ eauto | apply Hwt, Hk ].
    + exists cb', wt'. split_and!; [ reflexivity | | ].
      * intros k. rewrite Hc, lookup_insert, in_category_cons.
        case_decide as Hk; [ subst k; rewrite Hn; simpl; f_equal; lia | reflexivity ].
      * intros k. rewrite Hw, lookup_insert, in_category_cons.
        case_decide as Hk; [ subst k; rewrite Hts; simpl | reflexivity ].
        rewrite <- app_assoc. reflexivity.
Qed.

Lemma tally_raises (o : Oracle) (l : list Patient) (cb : gmap Z Z) (wt : gmap Z (list Z)) :
  has_categories cb -> has_categories wt -> counters_only cb ->
  Exists (fun p => ~ valid_category p) l ->
  tally o l cb wt = Raise KeyError.
Proof.
  intros Hcb Hwt Ho Hex. revert cb wt Hcb Hwt Ho.
  induction l as [|p l IH]; intros cb wt Hcb Hwt Ho; [ inversion Hex | ]. simpl.
  destruct (cb !! triage_category p) as [n|] eqn:Hn; [ | reflexivity ].
  assert (valid_category p) as Hp by (apply Ho; eauto).
  destruct (Hwt _ Hp) as [ts ->].
  apply IH.
  - apply Exists_cons in Hex as [Hex|Hex]; [ contradiction | exact Hex ].
  - intros k Hk. rewrite lookup_insert. case_decide; [ eauto | apply Hcb, Hk ].
  - intros k Hk. rewrite lookup_insert. case_decide; [ eauto | apply Hwt, Hk ].
  - intros k. rewrite lookup_insert. case_decide; [ subst k; auto | apply Ho ].
Qed.

Lemma initial_category_breakdown_lookup (k : Z) :
  initial_category_breakdown !! k = if decide (1 <= k <= 5) then Some 0 else None.
Proof.
  unfold initial_category_breakdown. simpl.
  repeat (rewrite lookup_insert; case_decide;
          [ subst k; rewrite decide_True by lia; reflexivity | ]).
  rewrite lookup_empty, decide_False by lia. reflexivity.
Qed.

Lemma initial_wait_times_lookup (k : Z) :
  initial_wait_times !! k = if decide (1 <= k <= 5) then Some [] else None.
Proof.
  unfold initial_wait_times. simpl.
  repeat (rewrite lookup_insert; case_decide;
          [ subst k; rewrite decide_True by lia; reflexivity | ]).
  rewrite lookup_empty, decide_False by lia. reflexivity.
Qed.

Lemma category_partition (l : list Patient) :
  Forall valid_category l ->
  (length (in_category 1 l) + length (in_category 2 l) + length (in_category 3 l)
   + length (in_category 4 l) + length (in_category 5 l) = length l)%nat.
Proof.
  induction 1 as [|p l Hp Hl IH]; [ reflexivity | ].
  rewrite !in_category_cons. unfold valid_category in Hp.
  repeat case_decide; simpl; lia.
Qed.

(** X14: when every generated patient has a triage category in 1..5,
    the statistics endpoint answers; it generates 25 patients and leaves
    the store alone; [categoryBreakdown] has exactly the keys 1..5, each
    holding the number of generated patients of that category, and the
    five counts add up to 25; a category without patients has the
    average wait 0. *)
Theorem get_stats_breakdown (o : Oracle) (round_div : Z -> Z -> Z) (w : World) :
  (forall i, valid_category (mock_patient o i)) ->
  let sample := mock_patient o <$> seq (mocks w) 25 in
  exists s,
    get_stats o round_div w
    = (mkWorld (patients w) (last_update w) (added w) (draws w) (mocks w + 25), Ok s)
    /\ (forall k, 1 <= k <= 5 ->
          categoryBreakdown s !! k = Some (Z.of_nat (length (in_category k sample)))
          /\ (in_category k sample = [] -> averageWaitTimes s !! k = Some 0))
    /\ (forall k, ~ 1 <= k <= 5 ->
          categoryBreakdown s !! k = None /\ averageWaitTimes s !! k = None)
    /\ (length (in_category 1 sample) + length (in_category 2 sample)
        + length (in_category 3 sample) + length (in_category 4 sample)
        + length (in_category 5 sample) = 25)%nat.
Proof.
  intros Hmock sample.
  assert (Forall valid_category sample) as Hs.
  { apply Forall_forall. intros p Hp.
    apply list_elem_of_fmap in Hp as (i & -> & _). apply Hmock. }
  destruct (tally_ok o sample initial_category_breakdown initial_wait_times Hs)
    as (cb & wt & Ht & Hc & Hw).
  { intros k Hk. rewrite initial_category_breakdown_lookup, decide_True by exact Hk. eauto. }
  { intros k Hk. rewrite initial_wait_times_lookup, decide_True by exact Hk. eauto. }
  eexists. split_and!.
  - unfold get_stats. unfold bind. rewrite generate_mock_patients_eq.
    fold sample. rewrite Ht. reflexivity.
  - intros k Hk. cbn [categoryBreakdown averageWaitTimes]. split.
    + rewrite Hc, initial_category_breakdown_lookup, decide_True by exact Hk.
      reflexivity.
    + intros He. rewrite lookup_fmap, Hw, initial_wait_times_lookup, decide_True
        by exact Hk.
      rewrite He. reflexivity.
  - intros k Hk. cbn [categoryBreakdown averageWaitTimes]. split.
    + rewrite Hc, initial_category_breakdown_lookup, decide_False by exact Hk.
      reflexivity.
    + rewrite lookup_fmap, Hw, initial_wait_times_lookup, decide_False by exact Hk.
      reflexivity.
  - rewrite (category_partition sample Hs). unfold sample.
    rewrite length_fmap, length_seq. reflexivity.
Qed.

(** The sample generator, averages rounded down. *)
Lemma get_stats_breakdown_witness :
  let o := sample_oracle 0 1 (1 # 2) in
  let sample := mock_patient o <$> seq (mocks world_one) 25 in
  exists s,
    get_stats o Z.div world_one
    = (mkWorld (patients world_one) (last_update world_one) (added world_one)
               (draws world_one) (mocks world_one + 25), Ok s)
    /\ (forall k, 1 <= k <= 5 ->
          categoryBreakdown s !! k = Some (Z.of_nat (length (in_category k sample)))
          /\ (in_category k sample = [] -> averageWaitTimes s !! k = Some 0))
    /\ (forall k, ~ 1 <= k <= 5 ->
          categoryBreakdown s !! k = None /\ averageWaitTimes s !! k = None)
    /\ (length (in_category 1 sample) + length (in_category 2 sample)
        + length (in_category 3 sample) + length (in_category 4 sample)
        + length (in_category 5 sample) = 25)%nat.
Proof.
  apply (get_stats_breakdown (sample_oracle 0 1 (1 # 2)) Z.div world_one).
  apply sample_mock_valid.
Defined.

(** X15: when one of the 25 generated patients has a triage category
    outside 1..5, the statistics endpoint fails with [KeyError]; the
    store is left alone. *)
Theorem get_stats_bad_category (o : Oracle) (round_div : Z -> Z -> Z) (w : World) (i : nat) :
  (mocks w <= i < mocks w + 25)%nat -> ~ valid_category (mock_patient o i) ->
  get_stats o round_div w
  = (mkWorld (patients w) (last_update w) (added w) (draws w) (mocks w + 25),
     Raise KeyError).
Proof.
  intros Hi Hbad. unfold get_stats. unfold bind. rewrite generate_mock_patients_eq.
  rewrite tally_raises; [ reflexivity | | | | ].
  - intros k Hk. rewrite initial_category_breakdown_lookup, decide_True by exact Hk. eauto.
  - intros k Hk. rewrite initial_wait_times_lookup, decide_True by exact Hk. eauto.
  - intros k [n Hk]. rewrite initial_category_breakdown_lookup in Hk.
    case_decide; [ assumption | discriminate ].
  - apply Exists_exists. exists (mock_patient o i). split; [ | exact Hbad ].
    apply list_elem_of_fmap. exists i. split; [ reflexivity | ].
    apply elem_of_seq. exact Hi.
Qed.

(** The faulty generator. *)
Lemma get_stats_bad_category_witness :
  get_stats faulty_oracle Z.div world_one
  = (mkWorld (patients world_one) (last_update world_one) (added world_one)
             (draws world_one) (mocks world_one + 25), Raise KeyError).
Proof.
  apply (get_stats_bad_category faulty_oracle Z.div world_one 3).
  - simpl. lia.
  - unfold valid_category. simpl. lia.
Defined.

(** ** Witnesses of the invariants *)

(** The sample store of two through one request. *)
Lemma get_queue_keyed_witness :
  keyed_by_id (patients (fst (get_queue (sample_oracle 0 1 (1 # 2)) None world_two))).
Proof.
  apply (get_queue_keyed (sample_oracle 0 1 (1 # 2)) None world_two).
  apply world_of_keyed.
Defined.

Lemma world_two_well_formed (k : string) (p : Patient) :
  patients world_two !! k = Some p -> well_formed p.
Proof.
  intros H. apply elem_of_list_to_map_2 in H.
  rewrite !fmap_cons, !elem_of_cons in H.
  destruct H as [[= -> ->]|[[= -> ->]|H]];
    [ | | apply not_elem_of_nil in H; contradiction ];
    (split; [ simpl; lia | discriminate ]).
Qed.

Lemma sample_mock_well_formed (i : nat) : well_formed (sample_mock i).
Proof. split; [ apply sample_mock_valid | discriminate ]. Qed.

(** The pass over the sample store of two. *)
Lemma update_patients_completes_witness :
  snd (update_patients (sample_oracle 0 1 (1 # 2)) world_two) = Ok tt.
Proof.
  apply (update_patients_completes (sample_oracle 0 1 (1 # 2)) world_two).
  - apply sample_oracle_scan_ok.
  - apply world_two_well_formed.
  - apply sample_mock_well_formed.
  - left. vm_compute. discriminate.
Defined.

(** ** The request as a whole *)

(** X18: a request that finds a stored timestamp runs exactly one pass,
    however little or much time has elapsed (even with a clock reading
    before the stored one): the scheduler ends as the pass ends, and
    apart from ['last_update'] it leaves the process state the pass
    leaves. *)
Theorem schedule_runs_one_pass (o : Oracle) (w : World) (t : Z) :
  last_update w = Some t ->
  snd (schedule o w) = snd (update_patients o w)
  /\ patients (fst (schedule o w)) = patients (fst (update_patients o w))
  /\ added (fst (schedule o w)) = added (fst (update_patients o w))
  /\ draws (fst (schedule o w)) = draws (fst (update_patients o w))
  /\ mocks (fst (schedule o w)) = mocks (fst (update_patients o w)).
Proof.
  intros Hlu. rewrite (schedule_later_request o w t Hlu).
  destruct (update_patients o w) as [w1 [[]|e]]; [ | split_and!; reflexivity ].
  destruct (0 <? _); split_and!; reflexivity.
Qed.

(** The sample store of two; the request comes at the stored time. *)
Lemma schedule_runs_one_pass_witness :
  let o := sample_oracle 0 1 (1 # 2) in
  snd (schedule o world_two) = snd (update_patients o world_two)
  /\ patients (fst (schedule o world_two)) = patients (fst (update_patients o world_two))
  /\ added (fst (schedule o world_two)) = added (fst (update_patients o world_two))
  /\ draws (fst (schedule o world_two)) = draws (fst (update_patients o world_two))
  /\ mocks (fst (schedule o world_two)) = mocks (fst (update_patients o world_two)).
Proof.
  apply (schedule_runs_one_pass (sample_oracle 0 1 (1 # 2)) world_two 0).
  reflexivity.
Defined.

Lemma number_all_inv (l : list Patient) (g : Z) (c : gmap Z Z) (w w' : World)
    (l' : list Patient) :
  number_all l g c w = (w', Ok l') ->
  Forall2 positioned l l' /\ patients w' = store_all l' (patients w).
Proof.
  revert g c w l'. induction l as [|p l IH]; intros g c w l'; simpl.
  - intros [= <- <-]. split; [ constructor | reflexivity ].
  - destruct (c !! triage_category p) as [ck|]; [ | discriminate ].
    unfold bind at 1. unfold add_patient at 1, modify at 1. unfold bind at 1.
    destruct (number_all l _ _ _) as [w1 [r|e]] eqn:E; [ | discriminate ].
    intros [= <- <-]. apply IH in E as [HF Hp]. split.
    + constructor; [ eexists; reflexivity | exact HF ].
    + rewrite Hp. reflexivity.
Qed.

Lemma store_all_values (l : list Patient) (m : gmap string Patient) :
  NoDup (id <$> l) -> (forall p, p ∈ l -> m !! id p = None) ->
  snd <$> map_to_list (store_all l m) ≡ₚ l ++ (snd <$> map_to_list m).
Proof.
  unfold store_all. revert m. induction l as [|p l IH]; intros m Hnd Hm; simpl.
  - reflexivity.
  - rewrite fmap_cons in Hnd. apply NoDup_cons in Hnd as [Hp Hnd].
    rewrite IH.
    + rewrite map_to_list_insert by (apply Hm; left).
      rewrite fmap_cons. simpl. symmetry. apply Permutation_middle.
    + exact Hnd.
    + intros q Hq. rewrite lookup_insert_ne.
      * apply Hm. right. exact Hq.
      * intros Heq. apply Hp. rewrite Heq. apply list_elem_of_fmap. eauto.
Qed.

(** X19: the answer of the queue endpoint is the persisted snapshot.
    When a request on a store whose keys are the ids of its entries
    answers, the patients in the answer are exactly the patients in the
    store after the request, each once (the generator being taken to give
    each patient its own id, which matters when the request has to fill
    an empty store). *)
Theorem response_is_stored_population (o : Oracle) (sort_arg : option string)
    (w w' : World) (r : Response) :
  scan_ok o -> keyed_by_id (patients w) ->
  (forall i j, id (mock_patient o i) = id (mock_patient o j) -> i = j) ->
  get_queue o sort_arg w = (w', Ok r) ->
  response_patients r ≡ₚ snd <$> map_to_list (patients w').
Proof.
  intros Hscan Hkey Hinj. unfold get_queue. unfold bind at 1.
  pose proof (schedule_stable keyed_after o
                add_patient_keyed remove_patient_keyed
                (fun t w0 H => H) (fun w0 H => H) (fun w0 H => H) w Hkey) as Hkey1.
  destruct (schedule o w) as [w1 [[]|e]]; [ | discriminate ].
  simpl in Hkey1. unfold bind at 1. rewrite get_patients_eq.
  destruct (scanned o w1) as [|kp d] eqn:Hsc.
  - assert (patients w1 = ∅) as Hempty.
    { destruct (decide (patients w1 = ∅)) as [He|Hne]; [ exact He | ].
      exfalso. exact (scanned_nonempty o w1 Hscan Hne Hsc). }
    cbn [fmap list_fmap]. unfold bind at 1. unfold bind at 1.
    rewrite generate_mock_patients_eq.
    destruct (number_all _ 1 initial_category_positions _) as [w2 [l|e]] eqn:En;
      [ | discriminate ].
    apply number_all_inv in En as [HF Hp]. cbn [patients] in Hp.
    destruct (respond o _ l) as [r'|e] eqn:Er; [ | discriminate ].
    intros [= <- <-]. unfold respond in Er.
    destruct (sort_by_attr o _ l) as [s|] eqn:Es; [ | discriminate ].
    injection Er as <-. cbn [response_patients].
    rewrite (sort_by_attr_perm _ _ _ _ Es), Hp, Hempty.
    rewrite store_all_values.
    + rewrite map_to_list_empty, app_nil_r. reflexivity.
    + rewrite (positioned_ids _ _ HF), list_sort_perm, <- list_fmap_compose.
      apply NoDup_fmap_2_strong; [ | apply NoDup_seq ].
      intros i j _ _ Hij. apply Hinj. exact Hij.
    + intros p _. apply lookup_empty.
  - cbn [fmap list_fmap]. unfold bind at 1. unfold ret at 1.
    destruct (respond o _ _) as [r'|e] eqn:Er; [ | discriminate ].
    intros [= <- <-]. unfold respond in Er.
    destruct (sort_by_attr o _ _) as [s|] eqn:Es; [ | discriminate ].
    injection Er as <-. cbn [response_patients].
    rewrite (sort_by_attr_perm _ _ _ _ Es).
    destruct (scanned_keyed o w1 Hscan Hkey1) as (_ & Hperm & _).
    rewrite Hsc in Hperm. exact Hperm.
Qed.

Lemma sample_mock_id_inj (i j : nat) : id (sample_mock i) = id (sample_mock j) -> i = j.
Proof.
  simpl. intros [= H]. apply (inj (@pretty nat _)). exact H.
Qed.

(** The first request on the sample store with no timestamp. *)
Lemma response_is_stored_population_witness :
  let o := sample_oracle 0 1 (1 # 2) in
  let w' := fst (get_queue o None world_fresh) in
  response_patients
    (mkResponse 2 (-3)
       [plain_patient "d" 1 4 "treatment"; plain_patient "c" 3 9 "registered"])
  ≡ₚ snd <$> map_to_list (patients w').
Proof.
  apply (response_is_stored_population (sample_oracle 0 1 (1 # 2)) None world_fresh).
  - apply sample_oracle_scan_ok.
  - apply world_of_keyed.
  - apply sample_mock_id_inj.
  - vm_compute. reflexivity.
Defined.
